(** * steam_wishlist_deals: the batched deal aggregator

    A shallow embedding of the client code that batches a wishlist's
    application ids into chunks of fifty, asks the pricing endpoint for
    each chunk, and merges the per-chunk query results into one view:

    - [client/src/types/steam.ts]      (module [Steam])
    - [client/src/api.ts]              (modules [Js], [Axios], [Api])
    - [client/src/components/DealsGG.tsx] (module [Component])

    The hooks of [@tanstack/react-query] are not part of the repository;
    the component is modelled as a function of what [useQueries] hands
    back, and a small cache in the words of the specification stands in
    for the fetch layer where a statement needs one (module [QueryCache]). *)

From Stdlib Require Import ZArith Lia.
From Stdlib Require Import Floats.PrimFloat.
From stdpp Require Import base option list gmap strings pretty.
From Equations Require Import Equations.

Local Open Scope Z_scope.
Local Open Scope nat_scope.

(** ** [types/steam.ts] *)

Module Steam.

(** [interface DealsGGPrices]; a TypeScript [number] that holds a price
    is a binary64 float. *)
Record DealsGGPrices := {
  retail_price : float;
  retail_price_low : float;
  keyshop_price : float;
  keyshop_price_low : float
}.

(** [interface DealsGGItem]; [appid] is an integer identifier. *)
Record DealsGGItem := {
  appid : Z;
  name : string;
  url : string;
  image_url : string;
  prices : DealsGGPrices;
  currency : string
}.

End Steam.

(** ** JavaScript values, exceptions and effects *)

Module Js.

(** The values a response body of type [any] can hold, as far as
    [api.ts] looks at them. *)
#[warnings="-register-all"]
Inductive JsValue :=
| JsUndefined
| JsNull
| JsNumber (n : Z)
| JsString (s : string)
| JsObject (fields : list (string * JsValue)).

(** [AxiosResponse<T>]: the two fields the code reads. *)
Record AxiosResponse (T : Type) := {
  status : Z;
  data : T
}.
Arguments status {T} _.
Arguments data {T} _.

(** What can be thrown: an [AxiosError] (with [response] set when the
    server answered), a [TypeError] raised by the language itself, or
    any other [Error]. *)
Inductive JsError :=
| AxiosError (message : string) (response : option (AxiosResponse JsValue))
| TypeError (message : string)
| OtherError (message : string).

(** [error.message] *)
Definition message (e : JsError) : string :=
  match e with
  | AxiosError m _ => m
  | TypeError m => m
  | OtherError m => m
  end.

(** The body [{ appids }] of a POST and the address it goes to. *)
Record Request := {
  req_url : string;
  req_appids : list Z
}.

(** The effects [api.ts] has: requests put on the wire and lines
    written with [console.log(label, value)]. *)
Record World := {
  sent : list Request;
  console : list (string * JsValue)
}.

(** How a computation ends: [return v] or [throw e]; for an [async]
    function, the promise fulfilled with [v] or rejected with [e]. *)
Inductive Settled (A : Type) :=
| Fulfilled (v : A)
| Rejected (e : JsError).
Arguments Fulfilled {A} _.
Arguments Rejected {A} _.

Definition Eff (A : Type) : Type := World -> World * Settled A.

Definition ret {A} (v : A) : Eff A := fun w => (w, Fulfilled v).

Definition throw {A} (e : JsError) : Eff A := fun w => (w, Rejected e).

Definition bind {A B} (m : Eff A) (k : A -> Eff B) : Eff B :=
  fun w =>
    match m w with
    | (w', Fulfilled v) => k v w'
    | (w', Rejected e) => (w', Rejected e)
    end.

(** [try { body } catch (error) { handler }] *)
Definition try_catch {A} (body : Eff A) (handler : JsError -> Eff A) : Eff A :=
  fun w =>
    match body w with
    | (w', Fulfilled v) => (w', Fulfilled v)
    | (w', Rejected e) => handler e w'
    end.

(** [console.log(label, v)] *)
Definition console_log (label : string) (v : JsValue) : Eff unit :=
  fun w => ({| sent := sent w; console := console w ++ [(label, v)] |},
            Fulfilled tt).

(** [v.name]: reading a property of [null] or [undefined] throws a
    [TypeError]; an object yields the field or [undefined]; a number or
    a string has no own property of the names read here. *)
Fixpoint assoc (name : string) (fields : list (string * JsValue)) : JsValue :=
  match fields with
  | [] => JsUndefined
  | (k, v) :: rest => if String.eqb k name then v else assoc name rest
  end.

Definition get_property (v : JsValue) (name : string) : Eff JsValue :=
  match v with
  | JsUndefined =>
      throw (TypeError ("Cannot read properties of undefined (reading '"
                          +:+ name +:+ "')"))
  | JsNull =>
      throw (TypeError ("Cannot read properties of null (reading '"
                          +:+ name +:+ "')"))
  | JsObject fields => ret (assoc name fields)
  | JsNumber _ | JsString _ => ret JsUndefined
  end.

End Js.

Declare Scope eff_scope.
Delimit Scope eff_scope with eff.
Notation "'let*' x ':=' m 'in' k" := (Js.bind m (fun x => k))
  (at level 10, x name, m at level 100, k at level 200) : eff_scope.
Notation "'exec' m 'in' k" := (Js.bind m (fun _ => k))
  (at level 10, m at level 100, k at level 200) : eff_scope.

(** ** [axios] *)

Module Axios.
Import Js Steam.

(** The server behind [/api]: what a request settles to, which may
    depend on the requests made before it. *)
Definition Backend : Type :=
  list Request -> Request -> Settled (AxiosResponse (list DealsGGItem)).

(** [axios.post(url, { appids })]: one request on the wire. *)
Definition post (backend : Backend) (u : string) (appids : list Z)
  : Eff (AxiosResponse (list DealsGGItem)) :=
  fun w =>
    let req := {| req_url := u; req_appids := appids |} in
    ({| sent := sent w ++ [req]; console := console w |},
     backend (sent w) req).

(** [axios.isAxiosError(error)] *)
Definition isAxiosError (e : JsError) : bool :=
  match e with
  | AxiosError _ _ => true
  | _ => false
  end.

(** [error.response] of an error that passed [isAxiosError]. *)
Definition response (e : JsError) : option (AxiosResponse JsValue) :=
  match e with
  | AxiosError _ r => r
  | _ => None
  end.

End Axios.

(** ** [api.ts] *)

Module Api.
Import Js Steam Axios.
Local Open Scope eff_scope.

(** [error.response?.status] *)
Definition response_status (error : JsError) : JsValue :=
  match response error with
  | None => JsUndefined
  | Some r => JsNumber (status r)
  end.

(** [error.response?.data.detail]: the optional chain stops at a
    missing [response]; with a response, [.detail] is read off
    [response.data] whatever that is. *)
Definition response_data_detail (error : JsError) : Eff JsValue :=
  match response error with
  | None => ret JsUndefined
  | Some r => get_property (data r) "detail"
  end.

(** [[
    export const fetchDealsGG = async(appids: number[]) => {
        try {
            const res = await axios.post('/api/dealsgg/games', { appids });
            return res.data;
        } catch (error) {
            if (axios.isAxiosError(error)) {
                console.log('Status:', error.response?.status);
                console.log('Message:', error.response?.data.detail);
            }
            throw error;
        }
    }
    ]] *)
Definition fetchDealsGG (backend : Backend) (appids : list Z)
  : Eff (list DealsGGItem) :=
  try_catch
    (let* res := post backend "/api/dealsgg/games" appids in
     ret (data res))
    (fun error =>
       exec (if isAxiosError error then
               exec console_log "Status:" (response_status error) in
               let* detail := response_data_detail error in
               console_log "Message:" detail
             else ret tt) in
       throw error).

(** The request [fetchDealsGG(appids)] puts on the wire. *)
Definition deals_request (appids : list Z) : Request :=
  {| req_url := "/api/dealsgg/games"; req_appids := appids |}.

(** An error whose logging stops short: an [AxiosError] with a response
    whose body is [null] or [undefined]. *)
Definition nullish_body (e : JsError) : bool :=
  match e with
  | AxiosError _ (Some r) =>
      match data r with
      | JsNull | JsUndefined => true
      | _ => false
      end
  | _ => false
  end.

End Api.

(** ** [@tanstack/react-query]: what the component hands to [useQueries]
    and what it reads from the results *)

Module ReactQuery.
Import Js Steam.

(** One element of [useQueries({ queries: [...] })]. *)
Record QueryOptions := {
  queryKey : string * list Z;
  queryFn : Eff (list DealsGGItem);
  staleTime : Z
}.

(** The three fields of a query result the component looks at:
    [isLoading : boolean], [error : Error | null] and
    [data : DealsGGItem[] | undefined]. *)
Record QueryResult := {
  isLoading : bool;
  error : option JsError;
  data : option (list DealsGGItem)
}.

(** The state of one chunk lookup: in flight, answered with its deal
    records, or rejected with the error thrown by the query function. *)
Inductive ChunkState :=
| Pending
| Succeeded (records : list DealsGGItem)
| Failed (e : JsError).

(** The result fields in each state: a lookup in flight has neither
    data nor error, a settled one has exactly one of them. *)
Definition resultOf (s : ChunkState) : QueryResult :=
  match s with
  | Pending => {| isLoading := true; error := None; data := None |}
  | Succeeded records =>
      {| isLoading := false; error := None; data := Some records |}
  | Failed e => {| isLoading := false; error := Some e; data := None |}
  end.

(** The deal records of a lookup that succeeded, the error of one that
    failed. *)
Definition records_of (s : ChunkState) : option (list DealsGGItem) :=
  match s with
  | Succeeded records => Some records
  | _ => None
  end.

Definition failure_of (s : ChunkState) : option JsError :=
  match s with
  | Failed e => Some e
  | _ => None
  end.

(** Every query function called once, in the order of the queries: the
    lookups a list of queries stands for. *)
Definition run_queries (qs : list QueryOptions) (w : World) : World :=
  foldl (fun w q => fst (queryFn q w)) w qs.

End ReactQuery.

(** ** [components/DealsGG.tsx] *)

Module Component.
Import Js Steam Axios Api ReactQuery.

Definition BATCH_SIZE : nat := 50.

(** [l.slice(start, stop)] for indices that are not negative: the
    elements from [start] up to, not including, [stop], as far as the
    array goes. *)
Definition slice {A} (l : list A) (start stop : nat) : list A :=
  take (stop - start) (drop start l).

(** [[
    for (let i = 0; i < appids.length; i += BATCH_SIZE) {
        results.push(appids.slice(i, i + BATCH_SIZE));
    }
    return results;
    ]] *)
Equations? chunks_loop (appids : list Z) (i : nat) (results : list (list Z))
  : list (list Z) by wf (length appids - i) lt :=
  chunks_loop appids i results with decide (i < length appids) => {
    | left _ => chunks_loop appids (i + BATCH_SIZE)
                  (results ++ [slice appids i (i + BATCH_SIZE)]);
    | right _ => results }.
Proof. unfold BATCH_SIZE. lia. Qed.

(** [const chunks = useMemo(() => { const results = []; ... }, [appids])] *)
Definition chunks (appids : list Z) : list (list Z) :=
  chunks_loop appids 0 [].

(** The props of one [<GameCard key={...} game={...}/>]. *)
Record GameCardProps := {
  key : Z;
  game : DealsGGItem
}.

(** What the component renders, one constructor for each [return]:
    - [<div>Loading deals... {loadedCount}/{chunks.length} batches loaded</div>]
    - [<div>Error loading some deals: {errors[0]?.message}</div>]
    - [<div>{allData?.map(deal => <GameCard key={deal.appid} game={deal}/>)}</div>] *)
Inductive View :=
| LoadingView (loadedCount total : nat)
| ErrorView (msg : option string)
| DealsView (cards : list GameCardProps).

(** [<GameCard key={deal.appid} game={deal}/>] *)
Definition GameCard (deal : DealsGGItem) : GameCardProps :=
  {| key := appid deal; game := deal |}.

(** The aggregate status a view stands for. *)
Inductive AggregateStatus :=
| OverallPending
| OverallFailed
| OverallSucceeded.

Definition status_of (v : View) : AggregateStatus :=
  match v with
  | LoadingView _ _ => OverallPending
  | ErrorView _ => OverallFailed
  | DealsView _ => OverallSucceeded
  end.

(** The deal records a view shows. *)
Definition visible_deals (v : View) : list DealsGGItem :=
  match v with
  | DealsView cards => map game cards
  | _ => []
  end.

(** [queries.some(q => q.isLoading)] *)
Definition isLoading (queries : list QueryResult) : bool :=
  existsb ReactQuery.isLoading queries.

(** [queries.filter(q => q.error).map(q => q.error)] *)
Definition errors (queries : list QueryResult) : list (option JsError) :=
  map error (filter (fun q => is_Some (error q)) queries).

(** [queries.filter(q => q.data).flatMap(q => q.data!)]; an array, also
    an empty one, is truthy. *)
Definition allData (queries : list QueryResult) : list DealsGGItem :=
  flat_map (fun q => default [] (data q))
           (filter (fun q => is_Some (data q)) queries).

(** [queries.filter(q => q.data).length] *)
Definition loadedCount (queries : list QueryResult) : nat :=
  length (filter (fun q => is_Some (data q)) queries).

(** [errors[0]?.message] *)
Definition first_message (errs : list (option JsError)) : option string :=
  match errs !! 0 with
  | Some (Some e) => Some (message e)
  | _ => None
  end.

Section DealsGG.
(** [axios] behind [fetchDealsGG], and the [useQueries] hook. *)
Variable backend : Backend.
Variable useQueries : list QueryOptions -> list QueryResult.

(** [[
    chunks.map((chunk, index) => ({
        queryKey: ['appids', chunk],
        queryFn: () => fetchDealsGG(chunk),
        staleTime: 5 * 60 * 1000, // Cache for 5 minutes
    }))
    ]] *)
Definition queryOptions (chunks : list (list Z)) : list QueryOptions :=
  map (fun chunk =>
         {| queryKey := ("appids", chunk);
            queryFn := fetchDealsGG backend chunk;
            staleTime := 5 * 60 * 1000 |})
      chunks.

(** The component [DealsGG = ({appids}) => ...]. *)
Definition DealsGG (appids : list Z) : View :=
  let chunks := chunks appids in
  let queries := useQueries (queryOptions chunks) in
  let isLoading := isLoading queries in
  let errors := errors queries in
  let allData := allData queries in
  if isLoading then
    let loadedCount := loadedCount queries in
    LoadingView loadedCount (length chunks)
  else if 0 <? length errors then
    ErrorView (first_message errors)
  else
    DealsView (map (fun deal => GameCard deal) allData).

End DealsGG.

End Component.

(** ** The fetch cache behind [useQueries] *)

Module QueryCache.
Import Js Steam ReactQuery.

(** Modelled from the spec: the fetch-caching layer behind [useQueries]
    ([@tanstack/react-query], a dependency, not among the sources). The
    specification describes it as a cache "key -> {status, value,
    timestamp}", keyed by the chunk's contents, in which "identical
    chunk contents across re-renders reuse an in-flight or cached
    result rather than re-fetching" and "results are cached for a
    bounded time window (5 minutes) before being considered stale and
    eligible for re-fetch". Time is in milliseconds. *)
Record Entry := {
  state : ChunkState;
  updatedAt : Z
}.

Abbreviation Cache := (gmap (string * list Z) Entry).

(** Modelled from the spec: an entry is reused when its lookup is in
    flight, or when it holds a result younger than the stale time. *)
Definition reusable (now stale : Z) (e : Entry) : bool :=
  match state e with
  | Pending => true
  | Succeeded _ => (now <? updatedAt e + stale)%Z
  | Failed _ => false
  end.

(** Modelled from the spec: subscribing one query at time [now] either
    reuses the entry under its key or starts a lookup, which is in
    flight from then on. The second component lists the lookups
    started, each of which is one call of its query function. *)
Definition subscribe (now : Z) (q : QueryOptions) (c : Cache)
  : Cache * list QueryOptions :=
  let start :=
    (<[queryKey q := {| state := Pending; updatedAt := now |}]> c, [q]) in
  match c !! queryKey q with
  | Some e => if reusable now (staleTime q) e then (c, []) else start
  | None => start
  end.

Fixpoint subscribe_all (now : Z) (qs : list QueryOptions) (c : Cache)
  : Cache * list QueryOptions :=
  match qs with
  | [] => (c, [])
  | q :: rest =>
      let '(c1, started1) := subscribe now q c in
      let '(c2, started2) := subscribe_all now rest c1 in
      (c2, started1 ++ started2)
  end.

(** Modelled from the spec: a started lookup settles at time [now]; its
    query function runs against the world and the outcome is written
    under the key, once. *)
Definition settle (now : Z) (cw : Cache * World) (q : QueryOptions)
  : Cache * World :=
  let '(w', outcome) := queryFn q (snd cw) in
  let s := match outcome with
           | Fulfilled records => Succeeded records
           | Rejected e => Failed e
           end in
  (<[queryKey q := {| state := s; updatedAt := now |}]> (fst cw), w').

Definition settle_all (now : Z) (started : list QueryOptions)
    (cw : Cache * World) : Cache * World :=
  foldl (settle now) cw started.

(** Modelled from the spec: the result the hook reports for a query is
    the state of the entry under its key. *)
Definition state_of (c : Cache) (q : QueryOptions) : ChunkState :=
  match c !! queryKey q with
  | Some e => state e
  | None => Pending
  end.

Definition observe (c : Cache) (q : QueryOptions) : QueryResult :=
  resultOf (state_of c q).

Definition useQueries (c : Cache) (qs : list QueryOptions)
  : list QueryResult :=
  map (observe c) qs.

End QueryCache.

(** ** Sample data *)

Module Sample.
Import Js Steam Axios ReactQuery.

(** A wishlist of 51 games, ids 1 to 51. *)
Definition wishlist51 : list Z := map Z.of_nat (seq 1 51).

Definition deal (a : Z) : DealsGGItem :=
  {| appid := a;
     name := "Game";
     url := "https://gg.deals/game/";
     image_url := "";
     prices := {| retail_price := 19.5%float;
                  retail_price_low := 9.75%float;
                  keyshop_price := 12.25%float;
                  keyshop_price_low := 4.5%float |};
     currency := "USD" |}.

(** A server that prices every game it is asked about. *)
Definition pricing : Backend :=
  fun _ req => Fulfilled {| status := 200;
                            Js.data := map deal (req_appids req) |}.

(** The connection is down: the request fails without a response. *)
Definition network_error : JsError := AxiosError "Network Error" None.

(** The server answers 500 with the JSON body [null]. *)
Definition null_body_error : JsError :=
  AxiosError "Request failed with status code 500"
             (Some {| status := 500; Js.data := JsNull |}).

Definition offline : Backend := fun _ _ => Rejected network_error.

Definition broken : Backend := fun _ _ => Rejected null_body_error.

(** A hook that reports the given states, whatever it is asked. *)
Definition reporting (states : list ChunkState)
  : list QueryOptions -> list QueryResult :=
  fun _ => map resultOf states.

(** A hook for which every lookup is still in flight. *)
Definition loading : list QueryOptions -> list QueryResult :=
  fun qs => map (fun _ => resultOf Pending) qs.

Definition empty_world : World := {| sent := []; console := [] |}.

(** A first invocation for [wishlist51] at time 0 on an empty cache,
    whose lookups settle one second later against [pricing]. *)
Definition first_round : QueryCache.Cache * World :=
  let qs := Component.queryOptions pricing (Component.chunks wishlist51) in
  let '(c1, started) := QueryCache.subscribe_all 0 qs ∅ in
  QueryCache.settle_all 1000 started (c1, empty_world).

End Sample.

(** ** The other requests of [api.ts]

    [fetchSteamUser], [fetchSteamGame], [fetchSteamGames] and
    [fetchUserWishlist] use GET as well as POST and answer with bodies of
    several types, so their effects are kept in a world of their own:
    requests with a method and an optional body. *)

Module Wire.
Import Js.

Inductive Method := GET | POST.

(** A request as [axios.get(url)] or [axios.post(url, { appids })] makes
    it; a GET has no body. *)
Record HttpRequest := {
  http_method : Method;
  http_url : string;
  http_appids : option (list Z)
}.

Record HttpWorld := {
  wire : list HttpRequest;
  printed : list (string * JsValue)
}.

Definition Io (A : Type) : Type := HttpWorld -> HttpWorld * Settled A.

Definition ret {A} (v : A) : Io A := fun w => (w, Fulfilled v).

Definition throw {A} (e : JsError) : Io A := fun w => (w, Rejected e).

Definition bind {A B} (m : Io A) (k : A -> Io B) : Io B :=
  fun w =>
    match m w with
    | (w', Fulfilled v) => k v w'
    | (w', Rejected e) => (w', Rejected e)
    end.

(** [try { body } catch (error) { handler }] *)
Definition try_catch {A} (body : Io A) (handler : JsError -> Io A) : Io A :=
  fun w =>
    match body w with
    | (w', Fulfilled v) => (w', Fulfilled v)
    | (w', Rejected e) => handler e w'
    end.

(** [console.log(label, v)] *)
Definition console_log (label : string) (v : JsValue) : Io unit :=
  fun w => ({| wire := wire w; printed := printed w ++ [(label, v)] |},
            Fulfilled tt).

(** [v.name], as [Js.get_property]. *)
Definition get_property (v : JsValue) (name : string) : Io JsValue :=
  match v with
  | JsUndefined =>
      throw (TypeError ("Cannot read properties of undefined (reading '"
                          +:+ name +:+ "')"))
  | JsNull =>
      throw (TypeError ("Cannot read properties of null (reading '"
                          +:+ name +:+ "')"))
  | JsObject fields => ret (assoc name fields)
  | JsNumber _ | JsString _ => ret JsUndefined
  end.

(** The server behind [/api], for responses with a body of type [T]. *)
Definition Server (T : Type) : Type :=
  list HttpRequest -> HttpRequest -> Settled (AxiosResponse T).

(** [axios.get(url)] *)
Definition get {T} (server : Server T) (u : string) : Io (AxiosResponse T) :=
  fun w =>
    let req := {| http_method := GET; http_url := u; http_appids := None |} in
    ({| wire := wire w ++ [req]; printed := printed w |}, server (wire w) req).

(** [axios.post(url, { appids })] *)
Definition post {T} (server : Server T) (u : string) (appids : list Z)
  : Io (AxiosResponse T) :=
  fun w =>
    let req := {| http_method := POST; http_url := u;
                  http_appids := Some appids |} in
    ({| wire := wire w ++ [req]; printed := printed w |}, server (wire w) req).

(** [`${n}`] for a number that is an integer below [10^21] in absolute
    value: its decimal digits, with a minus sign when negative. *)
Definition number_toString (n : Z) : string := pretty n.

End Wire.

Declare Scope io_scope.
Delimit Scope io_scope with io.
Notation "'let*' x ':=' m 'in' k" := (Wire.bind m (fun x => k))
  (at level 10, x name, m at level 100, k at level 200) : io_scope.
Notation "'exec' m 'in' k" := (Wire.bind m (fun _ => k))
  (at level 10, m at level 100, k at level 200) : io_scope.

Module ApiSteam.
Import Js Axios Wire.
Local Open Scope io_scope.

(** [error.response?.data.detail] *)
Definition response_data_detail (error : JsError) : Io JsValue :=
  match response error with
  | None => ret JsUndefined
  | Some r => get_property (Js.data r) "detail"
  end.

(** The body of the [catch (error) { ... }] block, which is the same,
    letter for letter, in every function of [api.ts]. *)
Definition catch_block {T} (error : JsError) : Io T :=
  exec (if isAxiosError error then
          exec console_log "Status:" (Api.response_status error) in
          let* detail := response_data_detail error in
          console_log "Message:" detail
        else ret tt) in
  throw error.

(** [[
    export const fetchSteamUser = async(steam_id: string) => {
        try {
            const res = await axios.get(`/api/steam/user/${steam_id}`);
            return res.data;
        } catch (error) {
            if (axios.isAxiosError(error)) {
                console.log('Status:', error.response?.status);
                console.log('Message:', error.response?.data.detail);
            }
            throw error;
        }
    }
    ]] The annotation [Promise<SteamPlayer>] leaves no trace at run time:
    the body is handed on as it came, whatever its type [T]. *)
Definition fetchSteamUser {T} (server : Server T) (steam_id : string) : Io T :=
  try_catch
    (let* res := get server ("/api/steam/user/" +:+ steam_id) in
     ret (Js.data res))
    (fun error =>
       exec (if isAxiosError error then
               exec console_log "Status:" (Api.response_status error) in
               let* detail := response_data_detail error in
               console_log "Message:" detail
             else ret tt) in
       throw error).

(** [fetchSteamGame = async(appid: number)], with
    [axios.get(`/api/steam/game/${appid}`)]. *)
Definition fetchSteamGame {T} (server : Server T) (appid : Z) : Io T :=
  try_catch
    (let* res := get server ("/api/steam/game/" +:+ number_toString appid) in
     ret (Js.data res))
    (fun error =>
       exec (if isAxiosError error then
               exec console_log "Status:" (Api.response_status error) in
               let* detail := response_data_detail error in
               console_log "Message:" detail
             else ret tt) in
       throw error).

(** [fetchSteamGames = async(appids: number[])], with
    [axios.post('/api/steam/games', { appids })]. *)
Definition fetchSteamGames {T} (server : Server T) (appids : list Z) : Io T :=
  try_catch
    (let* res := post server "/api/steam/games" appids in
     ret (Js.data res))
    (fun error =>
       exec (if isAxiosError error then
               exec console_log "Status:" (Api.response_status error) in
               let* detail := response_data_detail error in
               console_log "Message:" detail
             else ret tt) in
       throw error).

(** [fetchUserWishlist = async(steam_id: string)], with
    [axios.get(`/api/steam/user/wishlist/${steam_id}`)]. *)
Definition fetchUserWishlist {T} (server : Server T) (steam_id : string)
  : Io T :=
  try_catch
    (let* res := get server ("/api/steam/user/wishlist/" +:+ steam_id) in
     ret (Js.data res))
    (fun error =>
       exec (if isAxiosError error then
               exec console_log "Status:" (Api.response_status error) in
               let* detail := response_data_detail error in
               console_log "Message:" detail
             else ret tt) in
       throw error).

(** The lines the catch block writes for an error whose logging runs to
    its end. *)
Definition log_lines (e : JsError) : list (string * JsValue) :=
  match e with
  | AxiosError _ None =>
      [("Status:", JsUndefined); ("Message:", JsUndefined)]
  | AxiosError _ (Some r) =>
      [("Status:", JsNumber (status r));
       ("Message:", match Js.data r with
                    | JsObject fields => assoc "detail" fields
                    | _ => JsUndefined
                    end)]
  | _ => []
  end.

(** The four functions as one family, to speak about all of them at
    once: a call, the request it makes, and running it. *)
Inductive Call :=
| SteamUser (steam_id : string)
| SteamGame (appid : Z)
| SteamGames (appids : list Z)
| UserWishlist (steam_id : string).

Definition request_of (c : Call) : HttpRequest :=
  match c with
  | SteamUser steam_id =>
      {| http_method := GET; http_url := "/api/steam/user/" +:+ steam_id;
         http_appids := None |}
  | SteamGame appid =>
      {| http_method := GET;
         http_url := "/api/steam/game/" +:+ number_toString appid;
         http_appids := None |}
  | SteamGames appids =>
      {| http_method := POST; http_url := "/api/steam/games";
         http_appids := Some appids |}
  | UserWishlist steam_id =>
      {| http_method := GET;
         http_url := "/api/steam/user/wishlist/" +:+ steam_id;
         http_appids := None |}
  end.

Definition run_call {T} (server : Server T) (c : Call) : Io T :=
  match c with
  | SteamUser steam_id => fetchSteamUser server steam_id
  | SteamGame appid => fetchSteamGame server appid
  | SteamGames appids => fetchSteamGames server appids
  | UserWishlist steam_id => fetchUserWishlist server steam_id
  end.

(** The numbers [number_toString] is right for. *)
Definition in_range (c : Call) : Prop :=
  match c with
  | SteamGame appid => (Z.abs appid < 10 ^ 21)%Z
  | _ => True
  end.

End ApiSteam.

(** ** [components/Wishlist.tsx] *)

Module SteamWishlist.

(** [interface WishlistItem] of [types/steam.ts]. *)
Record WishlistItem := {
  steamid : Z;
  appid : Z;
  priority : Z
}.

End SteamWishlist.

Module UseQuery.
Import Js Wire.

(** [useQuery<T>({ queryKey: [name, arg], queryFn })] and the three
    fields read off its result. *)
Record Options (T : Type) := {
  queryKey : string * string;
  queryFn : Io T
}.
Arguments queryKey {T} _.
Arguments queryFn {T} _.

Record Result (T : Type) := {
  data : option T;
  isLoading : bool;
  error : option JsError
}.
Arguments data {T} _.
Arguments isLoading {T} _.
Arguments error {T} _.

End UseQuery.

Module WishlistComponent.
Import Js Axios Wire ApiSteam SteamWishlist.

(** What [Wishlist] renders, one constructor for each [return]:
    - [<div>Loading...</div>]
    - [<div>Error: {error.message}</div>]
    - [<DealsGG appids={game_appids}/>] *)
Inductive WishlistView :=
| WishlistLoading
| WishlistError (msg : string)
| WishlistDeals (deals : Component.View).

(** [data?.map(game => game.appid) || []]: an array, also an empty one,
    is truthy, so [[]] only stands in for missing data. *)
Definition game_appids (data : option (list WishlistItem)) : list Z :=
  match data with
  | Some items => map appid items
  | None => []
  end.

Section Wishlist.
Variable server : Server (list WishlistItem).
Variable backend : Backend.
Variable useQuery :
  UseQuery.Options (list WishlistItem) -> UseQuery.Result (list WishlistItem).
Variable useQueries :
  list ReactQuery.QueryOptions -> list ReactQuery.QueryResult.

(** [[
    { queryKey: ['steamUser', steamId],
      queryFn: () => fetchUserWishlist(steamId) }
    ]] *)
Definition wishlistQuery (steamId : string)
  : UseQuery.Options (list WishlistItem) :=
  {| UseQuery.queryKey := ("steamUser", steamId);
     UseQuery.queryFn := fetchUserWishlist server steamId |}.

(** The component [Wishlist = ({steamId}) => ...]. *)
Definition Wishlist (steamId : string) : WishlistView :=
  let r := useQuery (wishlistQuery steamId) in
  if UseQuery.isLoading r then WishlistLoading
  else match UseQuery.error r with
       | Some error => WishlistError (message error)
       | None =>
           let game_appids := game_appids (UseQuery.data r) in
           WishlistDeals (Component.DealsGG backend useQueries game_appids)
       end.

End Wishlist.

End WishlistComponent.

(** ** [App.tsx] *)

Module AppComponent.
Import Stdlib.Strings.Ascii.
Import Js.

(** The white space [String.prototype.trim] removes, among the code
    units below 256 that a character of a [string] stands for here: tab,
    line feed, vertical tab, form feed, carriage return, space and
    no-break space. *)
Definition is_white (c : ascii) : bool :=
  let n := nat_of_ascii c in
  (n =? 9) || (n =? 10) || (n =? 11) || (n =? 12) || (n =? 13)
  || (n =? 32) || (n =? 160).

Fixpoint trim_start (s : string) : string :=
  match s with
  | EmptyString => EmptyString
  | String c rest => if is_white c then trim_start rest else s
  end.

Fixpoint trim_end (s : string) : string :=
  match s with
  | EmptyString => EmptyString
  | String c rest =>
      match trim_end rest with
      | EmptyString => if is_white c then EmptyString else String c EmptyString
      | kept => String c kept
      end
  end.

(** [s.trim()] *)
Definition trim (s : string) : string := trim_end (trim_start s).

(** A string is truthy unless it is empty. *)
Definition truthy (s : string) : bool := negb (String.eqb s "").

(** A string of white space only, the empty one included. *)
Fixpoint blank (s : string) : bool :=
  match s with
  | EmptyString => true
  | String c rest => is_white c && blank rest
  end.

(** [const [steamId, setSteamId] = useState(STEAM_ID)] and
    [const [displayWishlist, setDisplayWishlist] = useState(false)];
    [STEAM_ID = import.meta.env.VITE_STEAM_USER_ID] is [undefined] when
    the variable is not set. *)
Record AppState := {
  steamId : option string;
  displayWishlist : bool
}.

Definition initial (STEAM_ID : option string) : AppState :=
  {| steamId := STEAM_ID; displayWishlist := false |}.

(** [[
    const handleEnterKey = (e) => {
        if (e.key === 'Enter' && steamId.trim()) {
            setDisplayWishlist(true)
        }
    }
    ]] Calling [.trim()] on [undefined] throws. *)
Definition handleEnterKey (key : string) (st : AppState) : Settled AppState :=
  if String.eqb key "Enter" then
    match steamId st with
    | None =>
        Rejected
          (TypeError "Cannot read properties of undefined (reading 'trim')")
    | Some id =>
        if truthy (trim id)
        then Fulfilled {| steamId := steamId st; displayWishlist := true |}
        else Fulfilled st
    end
  else Fulfilled st.

(** [onChange={e => setSteamId(e.target.value)}] *)
Definition onChange (value : string) (st : AppState) : AppState :=
  {| steamId := Some value; displayWishlist := displayWishlist st |}.

(** What happens to the input: a change of its value or a key press. A
    handler that throws has set no state. *)
Inductive Event :=
| Change (value : string)
| KeyDown (key : string).

Definition step (st : AppState) (ev : Event) : AppState :=
  match ev with
  | Change value => onChange value st
  | KeyDown key =>
      match handleEnterKey key st with
      | Fulfilled st' => st'
      | Rejected _ => st
      end
  end.

Definition run (evs : list Event) (st : AppState) : AppState :=
  foldl step st evs.

(** [{displayWishlist && (<Wishlist steamId={steamId}/>)}]: the
    [steamId] prop of the [Wishlist] rendered, if one is. *)
Definition rendered_wishlist (st : AppState) : option (option string) :=
  if displayWishlist st then Some (steamId st) else None.

End AppComponent.

(** ** More sample data *)

Module Fixtures.
Import Js Wire SteamWishlist.

Definition items : list WishlistItem :=
  [ {| steamid := 7; appid := 730; priority := 2 |};
    {| steamid := 7; appid := 570; priority := 1 |};
    {| steamid := 7; appid := 440; priority := 0 |} ].

(** The same games with other priorities. *)
Definition items_reprioritised : list WishlistItem :=
  [ {| steamid := 7; appid := 730; priority := 0 |};
    {| steamid := 7; appid := 570; priority := 5 |};
    {| steamid := 7; appid := 440; priority := 9 |} ].

Definition wishlist_server : Server (list WishlistItem) :=
  fun _ _ => Fulfilled {| status := 200; Js.data := items |}.

(** The server answers 404 with the body [{"detail": "Wishlist is private"}]. *)
Definition private_error : JsError :=
  AxiosError "Request failed with status code 404"
    (Some {| status := 404;
             Js.data := JsObject [("detail", JsString "Wishlist is private")] |}).

Definition private_server : Server (list WishlistItem) :=
  fun _ _ => Rejected private_error.

Definition null_body_server : Server (list WishlistItem) :=
  fun _ _ => Rejected Sample.null_body_error.

Definition private_backend : Axios.Backend :=
  fun _ _ => Rejected private_error.

Definition quiet : HttpWorld := {| wire := []; printed := [] |}.

End Fixtures.

Import Js Steam Axios Api ReactQuery Component.

(** * Chunking *)

Section Chunking.
Implicit Types (appids : list Z) (results : list (list Z)) (i j : nat).

Lemma chunks_loop_done appids i results :
  length appids <= i -> chunks_loop appids i results = results.
Proof.
  intros Hle. rewrite chunks_loop_equation_1.
  destruct (decide (i < length appids)); [lia | reflexivity].
Qed.

Lemma chunks_loop_step appids i results :
  i < length appids ->
  chunks_loop appids i results =
  chunks_loop appids (i + BATCH_SIZE)
              (results ++ [slice appids i (i + BATCH_SIZE)]).
Proof.
  intros Hlt. rewrite chunks_loop_equation_1.
  destruct (decide (i < length appids)); [reflexivity | lia].
Qed.

(** The accumulator only ever grows at its end. *)
Lemma chunks_loop_acc appids i results :
  chunks_loop appids i results = results ++ chunks_loop appids i [].
Proof.
  remember (length appids - i) as m eqn:Hm.
  revert i results Hm.
  induction m as [m IH] using lt_wf_ind; intros i results Hm.
  destruct (decide (i < length appids)) as [Hlt | Hge].
  - rewrite (chunks_loop_step appids i results Hlt).
    rewrite (chunks_loop_step appids i [] Hlt).
    rewrite (IH (length appids - (i + BATCH_SIZE)));
      [| unfold BATCH_SIZE; lia | reflexivity].
    rewrite (IH (length appids - (i + BATCH_SIZE)) ltac:(unfold BATCH_SIZE; lia)
                (i + BATCH_SIZE) ([] ++ _) eq_refl).
    rewrite <- !app_assoc. reflexivity.
  - rewrite !chunks_loop_done by lia. rewrite app_nil_r. reflexivity.
Qed.

Lemma chunks_loop_cons appids i :
  i < length appids ->
  chunks_loop appids i [] =
  slice appids i (i + BATCH_SIZE) :: chunks_loop appids (i + BATCH_SIZE) [].
Proof.
  intros Hlt. rewrite chunks_loop_step by assumption.
  rewrite chunks_loop_acc. reflexivity.
Qed.

(** Induction along the iterations of the loop, from index [i] on. *)
Lemma chunks_loop_induction appids (P : nat -> list (list Z) -> Prop) :
  (forall i, length appids <= i -> P i []) ->
  (forall i, i < length appids ->
     P (i + BATCH_SIZE) (chunks_loop appids (i + BATCH_SIZE) []) ->
     P i (slice appids i (i + BATCH_SIZE)
            :: chunks_loop appids (i + BATCH_SIZE) [])) ->
  forall i, P i (chunks_loop appids i []).
Proof.
  intros Hdone Hstep i.
  remember (length appids - i) as m eqn:Hm.
  revert i Hm.
  induction m as [m IH] using lt_wf_ind; intros i Hm.
  destruct (decide (i < length appids)) as [Hlt | Hge].
  - rewrite chunks_loop_cons by assumption.
    apply Hstep; [assumption |].
    apply (IH (length appids - (i + BATCH_SIZE)));
      [unfold BATCH_SIZE; lia | reflexivity].
  - rewrite chunks_loop_done by lia. apply Hdone. lia.
Qed.

Lemma length_slice appids i :
  length (slice appids i (i + BATCH_SIZE)) =
  Nat.min BATCH_SIZE (length appids - i).
Proof.
  unfold slice. rewrite length_take, length_drop.
  replace (i + BATCH_SIZE - i) with BATCH_SIZE by lia. reflexivity.
Qed.

Lemma concat_chunks_loop appids i :
  concat (chunks_loop appids i []) = drop i appids.
Proof.
  apply (chunks_loop_induction appids (fun i cs => concat cs = drop i appids)).
  - intros k Hk. rewrite drop_ge by lia. reflexivity.
  - intros k Hk IH. cbn [concat]. rewrite IH. unfold slice.
    replace (k + BATCH_SIZE - k) with BATCH_SIZE by lia.
    rewrite <- drop_drop. apply take_drop.
Qed.

Lemma length_chunks_loop appids i :
  length (chunks_loop appids i []) =
  (length appids - i + (BATCH_SIZE - 1)) / BATCH_SIZE.
Proof.
  apply (chunks_loop_induction appids
           (fun i cs => length cs =
                        (length appids - i + (BATCH_SIZE - 1)) / BATCH_SIZE)).
  - intros k Hk. replace (length appids - k) with 0 by lia. reflexivity.
  - intros k Hk IH. cbn [length]. rewrite IH. unfold BATCH_SIZE in *.
    destruct (decide (k + 50 <= length appids)) as [Hfull | Hlast].
    + replace (length appids - k + (50 - 1))
        with (length appids - (k + 50) + (50 - 1) + 1 * 50) by lia.
      rewrite Nat.div_add by lia. lia.
    + replace (length appids - (k + 50)) with 0 by lia.
      change (S ((0 + (50 - 1)) / 50)) with 1.
      apply (Nat.div_unique _ 50 1 (length appids - k - 1)); lia.
Qed.

Lemma lookup_chunks_loop appids i j :
  chunks_loop appids i [] !! j =
  if decide (i + BATCH_SIZE * j < length appids)
  then Some (slice appids (i + BATCH_SIZE * j)
                   (i + BATCH_SIZE * j + BATCH_SIZE))
  else None.
Proof.
  revert i j.
  refine (chunks_loop_induction appids
           (fun k cs => forall j, cs !! j =
              if decide (k + BATCH_SIZE * j < length appids)
              then Some (slice appids (k + BATCH_SIZE * j)
                               (k + BATCH_SIZE * j + BATCH_SIZE))
              else None) _ _).
  - intros k Hk j. destruct (decide _); [lia | reflexivity].
  - intros k Hk IH [| j].
    + cbn [lookup list_lookup]. rewrite Nat.mul_0_r, Nat.add_0_r.
      destruct (decide _); [reflexivity | lia].
    + change ((slice appids k (k + BATCH_SIZE)
                 :: chunks_loop appids (k + BATCH_SIZE) []) !! S j)
        with (chunks_loop appids (k + BATCH_SIZE) [] !! j).
      rewrite IH.
      replace (k + BATCH_SIZE + BATCH_SIZE * j)
        with (k + BATCH_SIZE * S j) by lia.
      reflexivity.
Qed.

Lemma concat_chunks appids : concat (chunks appids) = appids.
Proof. unfold chunks. rewrite concat_chunks_loop. apply drop_0. Qed.

Lemma length_chunks appids :
  length (chunks appids) = (length appids + 49) / 50.
Proof.
  unfold chunks. rewrite length_chunks_loop, Nat.sub_0_r. reflexivity.
Qed.

(** The ceiling of [n / 50] is the only [k] with [n <= 50 k < n + 50]. *)
Lemma ceil_bounds n : n <= 50 * ((n + 49) / 50) < n + 50.
Proof.
  pose proof (Nat.div_mod_eq (n + 49) 50) as Hdm.
  pose proof (Nat.mod_upper_bound (n + 49) 50 ltac:(lia)) as Hlt.
  lia.
Qed.

Lemma lookup_chunks appids j :
  chunks appids !! j =
  if decide (50 * j < length appids)
  then Some (take 50 (drop (50 * j) appids))
  else None.
Proof.
  unfold chunks. rewrite lookup_chunks_loop. unfold slice, BATCH_SIZE.
  cbn [Nat.add].
  destruct (decide _); [| reflexivity].
  replace (50 * j + 50 - 50 * j) with 50 by lia. reflexivity.
Qed.

Lemma lookup_chunks_Some appids j chunk :
  chunks appids !! j = Some chunk ->
  50 * j < length appids /\ chunk = take 50 (drop (50 * j) appids).
Proof.
  rewrite lookup_chunks. destruct (decide _); [| discriminate].
  intros [= <-]. split; [assumption | reflexivity].
Qed.

Lemma length_chunk appids j chunk :
  chunks appids !! j = Some chunk ->
  length chunk = Nat.min 50 (length appids - 50 * j).
Proof.
  intros [_ ->]%lookup_chunks_Some.
  rewrite length_take, length_drop. reflexivity.
Qed.

(** The element at position [p] of the input sits in chunk [p / 50] at
    offset [p mod 50]. *)
Lemma lookup_chunks_position appids p :
  (chunks appids !! (p / 50)) ≫= (fun chunk => chunk !! (p mod 50)) =
  appids !! p.
Proof.
  pose proof (Nat.div_mod_eq p 50) as Hdm.
  pose proof (Nat.mod_upper_bound p 50 ltac:(lia)) as Hlt.
  rewrite lookup_chunks.
  destruct (decide (50 * (p / 50) < length appids)) as [Hin | Hout].
  - cbn [mbind option_bind]. rewrite lookup_take_lt by assumption.
    rewrite lookup_drop. f_equal. lia.
  - cbn [mbind option_bind]. symmetry. apply lookup_ge_None. lia.
Qed.

End Chunking.

(** C1. For every identifier list of length [N] the chunking step
    produces [ceil (N / 50)] chunks (the one [k] with
    [N <= 50 k < N + 50]); chunk [i] is the slice of the input from
    position [50 i] on, at most [BATCH_SIZE = 50] elements long, so the
    chunks are contiguous and do not overlap; concatenating the chunks
    in order gives back the input. For [N = 50] there is one chunk, for
    [N = 51] there are two, of 50 and of 1 element. *)
Theorem chunks_partition (appids : list Z) :
  let N := length appids in
  let cs := chunks appids in
  BATCH_SIZE = 50
  /\ length cs = (N + 49) / 50
  /\ N <= 50 * length cs < N + 50
  /\ concat cs = appids
  /\ (forall i, i < length cs ->
        cs !! i = Some (take 50 (drop (50 * i) appids)))
  /\ Forall (fun chunk => length chunk <= 50) cs
  /\ (N = 50 -> length cs = 1)
  /\ (N = 51 -> map length cs = [50; 1]).
Proof.
  intros N cs. subst N cs.
  pose proof (length_chunks appids) as Hlen.
  pose proof (ceil_bounds (length appids)) as Hceil.
  repeat split.
  - exact Hlen.
  - rewrite Hlen. lia.
  - rewrite Hlen. lia.
  - apply concat_chunks.
  - intros i Hi. rewrite lookup_chunks.
    destruct (decide _); [reflexivity | lia].
  - apply Forall_lookup. intros i chunk Hi.
    apply length_chunk in Hi. lia.
  - intros HN. rewrite Hlen, HN. reflexivity.
  - intros HN. rewrite HN in Hlen. change ((51 + 49) / 50) with 2 in Hlen.
    pose proof (lookup_chunks appids 0) as H0.
    pose proof (lookup_chunks appids 1) as H1.
    rewrite HN in H0, H1. cbn in H0, H1.
    destruct (chunks appids) as [| a [| b [| c rest]]]; try discriminate.
    cbn in H0, H1. injection H0 as ->. injection H1 as ->.
    cbn [map]. rewrite !length_take, !length_drop, HN. reflexivity.
Qed.

Lemma chunks_partition_witness :
  length (chunks (replicate 50 7%Z)) = 1
  /\ map length (chunks Sample.wishlist51) = [50; 1]
  /\ chunks Sample.wishlist51 !! 1 = Some [51%Z].
Proof.
  destruct (chunks_partition (replicate 50 7%Z)) as (_ & _ & _ & _ & _ & _ & H50 & _).
  destruct (chunks_partition Sample.wishlist51) as (_ & _ & _ & _ & Hi & _ & _ & H51).
  split; [apply H50; reflexivity |].
  split; [apply H51; reflexivity |].
  apply (Hi 1). vm_compute. lia.
Defined.

(** * Merging the per-chunk results *)

(** Settles the truthiness tests [is_Some (Some _)] and [is_Some None]
    that the filters of the component leave behind. *)
Ltac settle_is_Some :=
  repeat first
    [ rewrite decide_True by (eexists; reflexivity)
    | rewrite decide_False by (apply is_Some_None) ].

Section Merging.
Implicit Types (states : list ChunkState) (qs : list QueryResult).

Lemma data_resultOf s : data (resultOf s) = records_of s.
Proof. destruct s; reflexivity. Qed.

Lemma error_resultOf s : error (resultOf s) = failure_of s.
Proof. destruct s; reflexivity. Qed.

Lemma isLoading_resultOf states :
  isLoading (map resultOf states) = true <-> Pending ∈ states.
Proof.
  unfold isLoading. induction states as [| s states IH]; cbn [map existsb].
  - split; [discriminate | intros H; inversion H].
  - rewrite orb_true_iff, IH, elem_of_cons.
    destruct s; cbn; split; intros [H | H]; auto; discriminate.
Qed.

Lemma isLoading_no_pending states :
  isLoading (map resultOf states) = false <-> Pending ∉ states.
Proof.
  rewrite <- isLoading_resultOf. destruct (isLoading _); split; congruence.
Qed.

Lemma errors_resultOf states :
  errors (map resultOf states) = map Some (omap failure_of states).
Proof.
  unfold errors. induction states as [| s states IH]; [reflexivity |].
  cbn [map omap]. rewrite filter_cons.
  destruct s; cbn; settle_is_Some; cbn; rewrite ?IH; reflexivity.
Qed.

Lemma filter_data_resultOf states :
  filter (fun q => is_Some (data q)) (map resultOf states) =
  map (fun r => resultOf (Succeeded r)) (omap records_of states).
Proof.
  induction states as [| s states IH]; [reflexivity |].
  cbn [map omap]. rewrite filter_cons.
  destruct s; cbn; settle_is_Some; cbn; rewrite ?IH; reflexivity.
Qed.

Lemma allData_resultOf states :
  allData (map resultOf states) = concat (omap records_of states).
Proof.
  unfold allData. rewrite filter_data_resultOf.
  generalize (omap records_of states) as rs.
  induction rs as [| r rs IH]; [reflexivity |].
  cbn [map flat_map concat]. rewrite IH. reflexivity.
Qed.

Lemma loadedCount_resultOf states :
  loadedCount (map resultOf states) = length (omap records_of states).
Proof.
  unfold loadedCount. rewrite filter_data_resultOf, length_map. reflexivity.
Qed.

Lemma visible_deals_cards (deals : list DealsGGItem) :
  visible_deals (DealsView (map (fun deal => GameCard deal) deals)) = deals.
Proof.
  cbn [visible_deals]. rewrite map_map. cbn. apply map_id.
Qed.

(** The first error of the lookups that failed belongs to the first
    failed lookup in chunk order. *)
Lemma first_failure states e es :
  omap failure_of states = e :: es ->
  exists i, states !! i = Some (Failed e)
            /\ forall j e', j < i -> states !! j <> Some (Failed e').
Proof.
  induction states as [| s states IH]; [discriminate |].
  destruct s as [| records | e0]; cbn [omap failure_of].
  - intros [i [Hi Hfirst]]%IH. exists (S i). split; [exact Hi |].
    intros [| j] e' Hj; [discriminate |]. apply Hfirst. lia.
  - intros [i [Hi Hfirst]]%IH. exists (S i). split; [exact Hi |].
    intros [| j] e' Hj; [discriminate |]. apply Hfirst. lia.
  - intros [= -> _]. exists 0. split; [reflexivity |]. intros j e' Hj. lia.
Qed.

Lemma omap_failure_nil states :
  omap failure_of states = [] <-> forall e, Failed e ∉ states.
Proof.
  induction states as [| s states IH].
  - split; [intros _ e H; inversion H | reflexivity].
  - destruct s as [| records | e0]; cbn [omap failure_of].
    + rewrite IH. split; intros H e; specialize (H e);
        rewrite ?elem_of_cons in *; intuition discriminate.
    + rewrite IH. split; intros H e; specialize (H e);
        rewrite ?elem_of_cons in *; intuition discriminate.
    + split; [discriminate |]. intros H. exfalso. apply (H e0). left.
Qed.

Lemma list_elem_of_omap_failure states e :
  e ∈ omap failure_of states -> Failed e ∈ states.
Proof.
  intros [s [Hs Hf]]%list_elem_of_omap.
  destruct s; try discriminate. injection Hf as ->. exact Hs.
Qed.

Section View.
Variable backend : Backend.
Variable useQueries : list QueryOptions -> list QueryResult.
Variable appids : list Z.
Variable states : list ChunkState.
Hypothesis Hqueries :
  useQueries (queryOptions backend (chunks appids)) = map resultOf states.

(** The three branches of the component, by the states of the
    lookups. *)
Lemma DealsGG_pending :
  Pending ∈ states ->
  DealsGG backend useQueries appids =
  LoadingView (length (omap records_of states)) (length (chunks appids)).
Proof.
  intros Hp. unfold DealsGG. rewrite Hqueries.
  apply isLoading_resultOf in Hp. rewrite Hp.
  rewrite loadedCount_resultOf. reflexivity.
Qed.

Lemma DealsGG_failed e es :
  Pending ∉ states ->
  omap failure_of states = e :: es ->
  DealsGG backend useQueries appids = ErrorView (Some (message e)).
Proof.
  intros Hp He. unfold DealsGG. rewrite Hqueries.
  apply isLoading_no_pending in Hp. rewrite Hp.
  rewrite errors_resultOf, He. reflexivity.
Qed.

Lemma DealsGG_succeeded :
  Pending ∉ states ->
  omap failure_of states = [] ->
  DealsGG backend useQueries appids =
  DealsView (map (fun deal => GameCard deal)
                 (concat (omap records_of states))).
Proof.
  intros Hp He. unfold DealsGG. rewrite Hqueries.
  apply isLoading_no_pending in Hp. rewrite Hp.
  rewrite errors_resultOf, He, allData_resultOf. reflexivity.
Qed.

End View.

End Merging.

Lemma length_concat_sum {A} (ls : list (list A)) :
  length (concat ls) = sum_list (map length ls).
Proof.
  induction ls as [| l ls IH]; [reflexivity |].
  cbn [concat map sum_list sum_list_with]. rewrite length_app, IH. reflexivity.
Qed.

Lemma omap_records_Succeeded (results : list (list DealsGGItem)) :
  omap records_of (map Succeeded results) = results.
Proof.
  induction results as [| r rs IH]; [reflexivity |].
  cbn. f_equal. exact IH.
Qed.

Lemma omap_failure_Succeeded (results : list (list DealsGGItem)) :
  omap failure_of (map Succeeded results) = [].
Proof.
  induction results as [| r rs IH]; [reflexivity |].
  cbn. exact IH.
Qed.

Lemma Pending_not_Succeeded (results : list (list DealsGGItem)) :
  Pending ∉ map Succeeded results.
Proof.
  intros [r [Hr _]]%list_elem_of_fmap. discriminate.
Qed.

(** C2. When every chunk lookup has succeeded, the aggregate status is
    succeeded and the records shown are the concatenation of the chunks'
    record lists in chunk order; their number is the sum of the chunks'
    record counts. *)
Theorem all_succeeded_concat
    (backend : Backend) (useQueries : list QueryOptions -> list QueryResult)
    (appids : list Z) (results : list (list DealsGGItem)) :
  useQueries (queryOptions backend (chunks appids)) =
    map resultOf (map Succeeded results) ->
  let v := DealsGG backend useQueries appids in
  status_of v = OverallSucceeded
  /\ v = DealsView (map (fun deal => GameCard deal) (concat results))
  /\ visible_deals v = concat results
  /\ length (visible_deals v) = sum_list (map length results).
Proof.
  intros Hq v. subst v.
  rewrite (DealsGG_succeeded backend useQueries appids _ Hq
             (Pending_not_Succeeded results) (omap_failure_Succeeded results)).
  rewrite omap_records_Succeeded, visible_deals_cards.
  repeat split; try reflexivity. apply length_concat_sum.
Qed.

Lemma all_succeeded_concat_witness :
  let v := DealsGG Sample.pricing
             (Sample.reporting [Succeeded [Sample.deal 1; Sample.deal 2];
                                Succeeded [Sample.deal 51]])
             Sample.wishlist51 in
  status_of v = OverallSucceeded
  /\ visible_deals v = [Sample.deal 1; Sample.deal 2; Sample.deal 51]
  /\ length (visible_deals v) = 3.
Proof.
  destruct (all_succeeded_concat Sample.pricing
              (Sample.reporting [Succeeded [Sample.deal 1; Sample.deal 2];
                                 Succeeded [Sample.deal 51]])
              Sample.wishlist51
              [[Sample.deal 1; Sample.deal 2]; [Sample.deal 51]]
              eq_refl) as (Hs & _ & Hv & Hl).
  exact (conj Hs (conj Hv Hl)).
Defined.

(** C3. Whatever the states of the other chunks, one pending chunk makes
    the aggregate status pending. *)
Theorem any_pending_overall_pending
    (backend : Backend) (useQueries : list QueryOptions -> list QueryResult)
    (appids : list Z) (states : list ChunkState) :
  useQueries (queryOptions backend (chunks appids)) = map resultOf states ->
  Pending ∈ states ->
  status_of (DealsGG backend useQueries appids) = OverallPending.
Proof.
  intros Hq Hp. rewrite (DealsGG_pending _ _ _ _ Hq Hp). reflexivity.
Qed.

Lemma any_pending_overall_pending_witness :
  status_of (DealsGG Sample.offline
               (Sample.reporting [Failed Sample.network_error; Pending])
               Sample.wishlist51) = OverallPending.
Proof.
  apply (any_pending_overall_pending Sample.offline
           (Sample.reporting [Failed Sample.network_error; Pending])
           Sample.wishlist51 [Failed Sample.network_error; Pending]).
  - reflexivity.
  - right. left.
Defined.

(** C4. The aggregate status is failed exactly when no chunk is pending
    and some chunk has failed. The message shown is then the one of the
    first failed chunk in chunk order, and no deal record of a succeeded
    chunk is shown. *)
Theorem overall_failed_first_error
    (backend : Backend) (useQueries : list QueryOptions -> list QueryResult)
    (appids : list Z) (states : list ChunkState) :
  useQueries (queryOptions backend (chunks appids)) = map resultOf states ->
  let v := DealsGG backend useQueries appids in
  (status_of v = OverallFailed <->
     (Pending ∉ states) /\ exists e, Failed e ∈ states)
  /\ (status_of v = OverallFailed ->
       exists i e,
         states !! i = Some (Failed e)
         /\ (forall j e', j < i -> states !! j <> Some (Failed e'))
         /\ v = ErrorView (Some (message e))
         /\ visible_deals v = []).
Proof.
  intros Hq v. subst v.
  assert (Hcases :
    (Pending ∈ states
     /\ status_of (DealsGG backend useQueries appids) = OverallPending)
    \/ ((Pending ∉ states) /\ (forall e, Failed e ∉ states)
        /\ status_of (DealsGG backend useQueries appids) = OverallSucceeded)
    \/ ((Pending ∉ states)
        /\ exists e es, omap failure_of states = e :: es
             /\ DealsGG backend useQueries appids
                = ErrorView (Some (message e)))).
  { destruct (isLoading (map resultOf states)) eqn:Hload.
    - apply isLoading_resultOf in Hload. left. split; [exact Hload |].
      rewrite (DealsGG_pending _ _ _ _ Hq Hload). reflexivity.
    - apply isLoading_no_pending in Hload. right.
      destruct (omap failure_of states) as [| e es] eqn:Hfail.
      + left. split; [exact Hload |]. split.
        * apply omap_failure_nil. exact Hfail.
        * rewrite (DealsGG_succeeded _ _ _ _ Hq Hload Hfail). reflexivity.
      + right. split; [exact Hload |]. exists e, es. split; [reflexivity |].
        apply (DealsGG_failed _ _ _ _ Hq e es Hload Hfail). }
  split.
  - destruct Hcases as [[Hp Hs] | [(Hp & Hnone & Hs) | (Hp & e & es & He & Hv)]].
    + rewrite Hs. split; [discriminate | intros [Hnp _]; contradiction].
    + rewrite Hs. split; [discriminate |].
      intros [_ [e He]]. destruct (Hnone e He).
    + rewrite Hv. split; [| reflexivity]. intros _. split; [exact Hp |].
      exists e. apply list_elem_of_omap_failure. rewrite He. left.
  - destruct Hcases as [[Hp Hs] | [(Hp & Hnone & Hs) | (Hp & e & es & He & Hv)]].
    + rewrite Hs. discriminate.
    + rewrite Hs. discriminate.
    + intros _. destruct (first_failure states e es He) as (i & Hi & Hfirst).
      exists i, e. rewrite Hv. repeat split; [exact Hi | exact Hfirst].
Qed.

Lemma overall_failed_first_error_witness :
  let v := DealsGG Sample.offline
             (Sample.reporting [Succeeded [Sample.deal 1];
                                Failed Sample.network_error])
             Sample.wishlist51 in
  status_of v = OverallFailed
  /\ v = ErrorView (Some "Network Error")
  /\ visible_deals v = [].
Proof.
  pose proof (overall_failed_first_error Sample.offline
                (Sample.reporting [Succeeded [Sample.deal 1];
                                   Failed Sample.network_error])
                Sample.wishlist51
                [Succeeded [Sample.deal 1]; Failed Sample.network_error]
                eq_refl) as [Hiff Hfirst].
  assert (Hs : status_of
                 (DealsGG Sample.offline
                    (Sample.reporting [Succeeded [Sample.deal 1];
                                       Failed Sample.network_error])
                    Sample.wishlist51) = OverallFailed) by reflexivity.
  destruct (Hfirst Hs) as (i & e & Hi & _ & _ & Hv).
  split; [exact Hs |]. split; [reflexivity | exact Hv].
Defined.

(** C5. For the empty identifier list no chunk is produced and no query,
    hence no lookup, is handed to the fetch layer; with a hook that
    answers one result per query the component is at once in the
    succeeded state and shows no record. *)
Theorem empty_list_succeeds
    (backend : Backend) (useQueries : list QueryOptions -> list QueryResult) :
  (forall qs, length (useQueries qs) = length qs) ->
  chunks [] = []
  /\ queryOptions backend (chunks []) = []
  /\ (forall w, run_queries (queryOptions backend (chunks [])) w = w)
  /\ DealsGG backend useQueries [] = DealsView []
  /\ status_of (DealsGG backend useQueries []) = OverallSucceeded
  /\ visible_deals (DealsGG backend useQueries []) = [].
Proof.
  intros Hlen.
  assert (Hq : useQueries [] = []).
  { apply length_zero_iff_nil. rewrite Hlen. reflexivity. }
  assert (Hv : DealsGG backend useQueries [] = DealsView []).
  { unfold DealsGG. change (chunks []) with (@nil (list Z)).
    cbn [queryOptions map]. rewrite Hq. reflexivity. }
  rewrite Hv. repeat split; reflexivity.
Qed.

Lemma empty_list_succeeds_witness :
  DealsGG Sample.pricing Sample.loading [] = DealsView [].
Proof.
  apply (empty_list_succeeds Sample.pricing Sample.loading).
  intros qs. unfold Sample.loading. apply length_map.
Defined.

(** C6. While the aggregate is pending, the progress shown is the number
    of chunks that have succeeded, failed chunks not counted, out of
    the number of chunks. *)
Theorem pending_progress
    (backend : Backend) (useQueries : list QueryOptions -> list QueryResult)
    (appids : list Z) (states : list ChunkState) :
  useQueries (queryOptions backend (chunks appids)) = map resultOf states ->
  Pending ∈ states ->
  DealsGG backend useQueries appids =
  LoadingView (length (omap records_of states)) (length (chunks appids)).
Proof.
  intros Hq Hp. apply (DealsGG_pending _ _ _ _ Hq Hp).
Qed.

Lemma pending_progress_witness :
  DealsGG Sample.offline
    (Sample.reporting [Succeeded [Sample.deal 1]; Failed Sample.network_error;
                       Pending])
    (Sample.wishlist51 ++ Sample.wishlist51)
  = LoadingView 1 3.
Proof.
  apply (pending_progress Sample.offline
           (Sample.reporting [Succeeded [Sample.deal 1];
                              Failed Sample.network_error; Pending])
           (Sample.wishlist51 ++ Sample.wishlist51)
           [Succeeded [Sample.deal 1]; Failed Sample.network_error; Pending]).
  - reflexivity.
  - right. right. left.
Defined.

(** * The chunk lookup *)

Section Fetch.
Variable backend : Backend.
Implicit Types (appids : list Z) (w : World) (e : JsError).

(** One call is one request, whatever the outcome: nothing is retried. *)
Lemma fetchDealsGG_sent appids w :
  sent (fst (fetchDealsGG backend appids w)) =
  sent w ++ [deals_request appids].
Proof.
  unfold fetchDealsGG, try_catch, bind, post, deals_request.
  destruct (backend (sent w) _) as [res | e]; [reflexivity |].
  destruct e as [m [[st body] |] | m | m]; try reflexivity.
  destruct body; reflexivity.
Qed.

Lemma fetchDealsGG_fulfilled appids w res :
  backend (sent w) (deals_request appids) = Fulfilled res ->
  snd (fetchDealsGG backend appids w) = Fulfilled (Js.data res)
  /\ console (fst (fetchDealsGG backend appids w)) = console w.
Proof.
  intros Hres. unfold fetchDealsGG, try_catch, bind, post.
  fold (deals_request appids). rewrite Hres. split; reflexivity.
Qed.

(** A failed request never comes back as a value. *)
Lemma fetchDealsGG_rejected appids w e :
  backend (sent w) (deals_request appids) = Rejected e ->
  exists e', snd (fetchDealsGG backend appids w) = Rejected e'.
Proof.
  intros Hres. unfold fetchDealsGG, try_catch, bind, post.
  fold (deals_request appids). rewrite Hres.
  destruct e as [m [[st body] |] | m | m]; try (eexists; reflexivity).
  destruct body; eexists; reflexivity.
Qed.

(** The error of the request is the error thrown, unless it is an
    [AxiosError] whose response body is [null] or [undefined]. *)
Lemma fetchDealsGG_rethrows appids w e :
  backend (sent w) (deals_request appids) = Rejected e ->
  nullish_body e = false ->
  snd (fetchDealsGG backend appids w) = Rejected e.
Proof.
  intros Hres Hbody. unfold fetchDealsGG, try_catch, bind, post.
  fold (deals_request appids). rewrite Hres.
  destruct e as [m [[st body] |] | m | m]; try reflexivity.
  destruct body; try reflexivity; discriminate.
Qed.

(** With such a body the second log line is never written: reading
    [.detail] throws, and the [TypeError] replaces the error of the
    request. *)
Lemma fetchDealsGG_nullish appids w e :
  backend (sent w) (deals_request appids) = Rejected e ->
  nullish_body e = true ->
  exists m, snd (fetchDealsGG backend appids w) = Rejected (TypeError m)
            /\ e <> TypeError m.
Proof.
  intros Hres Hbody. unfold fetchDealsGG, try_catch, bind, post.
  fold (deals_request appids). rewrite Hres.
  destruct e as [m [[st body] |] | m | m]; try discriminate.
  destruct body; try discriminate; eexists; (split; [reflexivity | discriminate]).
Qed.

End Fetch.

(** C8. [fetchDealsGG] is meant to log and rethrow the error of the
    request as it is. When the server answers an error status with the
    JSON body [null], reading [error.response?.data.detail] for the
    second log line throws a [TypeError] inside the [catch] block, and
    that error, not the one of the request, reaches the caller. The
    request still fails and is sent once. *)
Theorem fetchDealsGG_null_body (appids : list Z) (w : World) :
  snd (fetchDealsGG Sample.broken appids w) =
    Rejected (TypeError "Cannot read properties of null (reading 'detail')")
  /\ snd (fetchDealsGG Sample.broken appids w) <>
       Rejected Sample.null_body_error
  /\ console (fst (fetchDealsGG Sample.broken appids w)) =
       console w ++ [("Status:", JsNumber 500)]
  /\ sent (fst (fetchDealsGG Sample.broken appids w)) =
       sent w ++ [deals_request appids].
Proof.
  repeat split; try reflexivity. discriminate.
Qed.


(** * The lookups of the chunks *)

Lemma lookup_queryOptions (backend : Backend) (cs : list (list Z)) (i : nat) :
  queryOptions backend cs !! i =
  (fun chunk => {| queryKey := ("appids", chunk);
                   queryFn := fetchDealsGG backend chunk;
                   staleTime := 5 * 60 * 1000 |}) <$> cs !! i.
Proof.
  revert i. induction cs as [| c cs IH]; intros [| i]; try reflexivity.
  apply IH.
Qed.

Lemma run_queries_sent (backend : Backend) (cs : list (list Z)) (w : World) :
  sent (run_queries (queryOptions backend cs) w) =
  sent w ++ map deals_request cs.
Proof.
  revert w. induction cs as [| c cs IH]; intros w.
  - cbn. rewrite app_nil_r. reflexivity.
  - cbn [queryOptions map run_queries foldl queryFn].
    change (foldl _ ?w0 (map ?f cs))
      with (run_queries (queryOptions backend cs) w0).
    rewrite IH, fetchDealsGG_sent, <- app_assoc. reflexivity.
Qed.

(** C9. Chunk [i] of an identifier list of length [N] has
    [min 50 (N - 50 i)] elements and is not empty; every chunk but the
    last has 50. The query made for it sends one request whose body is
    this chunk: no request carries an empty identifier list. (The
    statement holds for every list; the empty one has no chunk.) *)
Theorem chunks_nonempty (backend : Backend) (appids : list Z)
    (i : nat) (chunk : list Z) :
  chunks appids !! i = Some chunk ->
  length chunk = Nat.min 50 (length appids - 50 * i)
  /\ chunk <> []
  /\ (S i < length (chunks appids) -> length chunk = 50)
  /\ exists q,
       queryOptions backend (chunks appids) !! i = Some q
       /\ queryKey q = ("appids", chunk)
       /\ forall w, sent (fst (queryFn q w)) = sent w ++ [deals_request chunk].
Proof.
  intros Hi.
  pose proof (length_chunk appids i chunk Hi) as Hlen.
  destruct (lookup_chunks_Some appids i chunk Hi) as [Hlt _].
  split; [exact Hlen |]. split; [| split].
  - intros ->. cbn [length] in Hlen. lia.
  - intros Hnext. rewrite length_chunks in Hnext.
    pose proof (ceil_bounds (length appids)) as Hceil. lia.
  - eexists. split; [| split].
    + rewrite lookup_queryOptions, Hi. reflexivity.
    + reflexivity.
    + intros w. apply fetchDealsGG_sent.
Qed.

Lemma chunks_nonempty_witness :
  chunks Sample.wishlist51 !! 1 = Some [51%Z]
  /\ length [51%Z] = Nat.min 50 (length Sample.wishlist51 - 50 * 1)
  /\ [51%Z] <> [].
Proof.
  destruct (chunks_nonempty Sample.pricing Sample.wishlist51 1 [51%Z] eq_refl)
    as (Hlen & Hne & _).
  split; [reflexivity | exact (conj Hlen Hne)].
Defined.


(** * No deduplication *)

(** Merging keeps every record of every result: the records that pass a
    test are as many as pass it in the results taken one by one. *)
Lemma allData_filter_count (P : DealsGGItem -> Prop)
    `{forall d, Decision (P d)} (qs : list QueryResult) :
  length (filter P (allData qs)) =
  sum_list (map (fun q => length (filter P (default [] (data q)))) qs).
Proof.
  unfold allData. induction qs as [| q qs IH]; [reflexivity |].
  rewrite filter_cons. cbn [map sum_list sum_list_with].
  destruct (data q) as [records |] eqn:Hdata; settle_is_Some.
  - cbn [flat_map]. rewrite Hdata. cbn [default from_option].
    rewrite filter_app, length_app, IH. reflexivity.
  - cbn [default from_option]. rewrite filter_nil. exact IH.
Qed.

Lemma concat_payloads (cs : list (list Z)) :
  concat (map req_appids (map deals_request cs)) = concat cs.
Proof.
  rewrite map_map. cbn. rewrite map_id. reflexivity.
Qed.

Lemma Pending_not_priced (f : Z -> DealsGGItem) (cs : list (list Z)) :
  Pending ∉ map (fun chunk => Succeeded (map f chunk)) cs.
Proof.
  intros [c [Hc _]]%list_elem_of_fmap. discriminate.
Qed.

Lemma omap_failure_priced (f : Z -> DealsGGItem) (cs : list (list Z)) :
  omap failure_of (map (fun chunk => Succeeded (map f chunk)) cs) = [].
Proof.
  induction cs as [| c cs IH]; [reflexivity |]. cbn. exact IH.
Qed.

Lemma omap_records_priced (f : Z -> DealsGGItem) (cs : list (list Z)) :
  omap records_of (map (fun chunk => Succeeded (map f chunk)) cs) =
  map (map f) cs.
Proof.
  induction cs as [| c cs IH]; [reflexivity |]. cbn. f_equal. exact IH.
Qed.

(** C10. Nothing is deduplicated. An identifier occurs in the chunks as
    often as in the input, each occurrence at its position: position [p]
    of the input is offset [p mod 50] of chunk [p / 50]. The bodies of
    the requests of the queries, one after the other, are the input
    again; and when every chunk comes back with one record per
    identifier asked, the records shown are one per position of the
    input, duplicates included. *)
Theorem no_deduplication
    (backend : Backend) (useQueries : list QueryOptions -> list QueryResult)
    (appids : list Z) (id : Z) (f : Z -> DealsGGItem) (w : World) :
  count_occ Z.eq_dec (concat (chunks appids)) id = count_occ Z.eq_dec appids id
  /\ (forall p, (chunks appids !! (p / 50))
                  ≫= (fun chunk => chunk !! (p mod 50)) = appids !! p)
  /\ sent (run_queries (queryOptions backend (chunks appids)) w) =
       sent w ++ map deals_request (chunks appids)
  /\ concat (map req_appids (map deals_request (chunks appids))) = appids
  /\ (forall qs : list QueryResult,
        length (filter (fun d => appid d = id) (allData qs)) =
        sum_list (map (fun q => length (filter (fun d => appid d = id)
                                               (default [] (data q)))) qs))
  /\ (useQueries (queryOptions backend (chunks appids)) =
         map resultOf (map (fun chunk => Succeeded (map f chunk))
                           (chunks appids)) ->
       visible_deals (DealsGG backend useQueries appids) = map f appids).
Proof.
  split; [rewrite concat_chunks; reflexivity |].
  split; [intros p; apply lookup_chunks_position |].
  split; [apply run_queries_sent |].
  split; [rewrite concat_payloads; apply concat_chunks |].
  split; [intros qs; apply allData_filter_count |].
  intros Hq.
  rewrite (DealsGG_succeeded backend useQueries appids _ Hq
             (Pending_not_priced f _) (omap_failure_priced f _)).
  rewrite visible_deals_cards, omap_records_priced.
  rewrite <- concat_map, concat_chunks. reflexivity.
Qed.

Lemma no_deduplication_witness :
  visible_deals
    (DealsGG Sample.pricing
       (Sample.reporting [Succeeded (map Sample.deal [730; 730; 570; 730]%Z)])
       [730; 730; 570; 730]%Z)
  = [Sample.deal 730; Sample.deal 730; Sample.deal 570; Sample.deal 730].
Proof.
  destruct (no_deduplication Sample.pricing
              (Sample.reporting
                 [Succeeded (map Sample.deal [730; 730; 570; 730]%Z)])
              [730; 730; 570; 730]%Z 730%Z Sample.deal Sample.empty_world)
    as (_ & _ & _ & _ & _ & Hv).
  apply Hv. reflexivity.
Defined.


(** * Re-invoking with the same list *)

Section Cache.
Import QueryCache.
Implicit Types (c : Cache) (q : QueryOptions) (qs : list QueryOptions).

Lemma subscribe_reusable now q c e :
  c !! queryKey q = Some e ->
  reusable now (staleTime q) e = true ->
  subscribe now q c = (c, []).
Proof.
  intros Hc Hr. unfold subscribe. rewrite Hc, Hr. reflexivity.
Qed.

(** A subscription leaves an entry as it was or puts a lookup in
    flight under the key. *)
Lemma subscribe_lookup now q c k :
  (fst (subscribe now q c)) !! k = c !! k
  \/ (k = queryKey q
      /\ (fst (subscribe now q c)) !! k =
           Some {| state := Pending; updatedAt := now |}).
Proof.
  unfold subscribe.
  destruct (c !! queryKey q) as [e |] eqn:Hc;
    [destruct (reusable now (staleTime q) e); [left; reflexivity |] |];
    cbn [fst];
    (destruct (decide (k = queryKey q)) as [-> | Hk];
     [right; split; [reflexivity | apply lookup_insert_eq]
     | left; apply lookup_insert_ne; congruence]).
Qed.

(** What a subscription starts is the query itself, and only when the
    cache has no entry to reuse under its key. *)
Lemma subscribe_started now q c q' :
  q' ∈ snd (subscribe now q c) ->
  q' = q /\ forall e, c !! queryKey q = Some e ->
                     reusable now (staleTime q) e = false.
Proof.
  unfold subscribe.
  destruct (c !! queryKey q) as [e |] eqn:Hc;
    [destruct (reusable now (staleTime q) e) eqn:Hr |]; cbn [snd].
  - intros H. inversion H.
  - intros ->%list_elem_of_singleton. split; [reflexivity |].
    intros e' [= <-]. exact Hr.
  - intros ->%list_elem_of_singleton. split; [reflexivity |].
    intros e' [=].
Qed.

Lemma subscribe_all_started now qs c q :
  q ∈ snd (subscribe_all now qs c) ->
  q ∈ qs /\ forall e, c !! queryKey q = Some e ->
                     reusable now (staleTime q) e = false.
Proof.
  revert c. induction qs as [| a qs IH]; intros c; cbn [subscribe_all].
  - cbn. intros H. inversion H.
  - destruct (subscribe now a c) as [c1 started1] eqn:Hsub.
    destruct (subscribe_all now qs c1) as [c2 started2] eqn:Hall.
    cbn [snd]. intros [Hin | Hin]%elem_of_app.
    + pose proof (subscribe_started now a c q) as Hs.
      rewrite Hsub in Hs. destruct (Hs Hin) as [-> Hnone].
      split; [left | exact Hnone].
    + specialize (IH c1 ltac:(rewrite Hall; exact Hin)) as [Hq Hnone].
      split; [right; exact Hq |].
      intros e He.
      pose proof (subscribe_lookup now a c (queryKey q)) as Hl.
      rewrite Hsub in Hl. cbn [fst] in Hl.
      destruct Hl as [Hsame | [_ Hflight]].
      * apply Hnone. rewrite Hsame. exact He.
      * specialize (Hnone _ Hflight). discriminate.
Qed.

Lemma subscribe_all_reusable now qs c :
  (forall q, q ∈ qs ->
     exists e, c !! queryKey q = Some e
               /\ reusable now (staleTime q) e = true) ->
  subscribe_all now qs c = (c, []).
Proof.
  induction qs as [| a qs IH]; intros Hall; [reflexivity |].
  cbn [subscribe_all].
  destruct (Hall a ltac:(left)) as (e & He & Hr).
  rewrite (subscribe_reusable now a c e He Hr).
  rewrite IH; [reflexivity |].
  intros q Hq. apply Hall. right. exact Hq.
Qed.

Lemma useQueries_states c qs :
  QueryCache.useQueries c qs = map resultOf (map (state_of c) qs).
Proof.
  unfold QueryCache.useQueries, observe. rewrite map_map. reflexivity.
Qed.

(** With a result in the cache for every chunk, every state the hook
    reports is that of a lookup that succeeded. *)
Lemma cached_states (backend : Backend) (cs : list (list Z)) c s :
  (forall chunk, chunk ∈ cs ->
     exists e records, c !! ("appids", chunk) = Some e
                       /\ state e = Succeeded records) ->
  s ∈ map (state_of c) (queryOptions backend cs) ->
  exists records, s = Succeeded records.
Proof.
  intros Hcached [q [-> [chunk [-> Hchunk]]%list_elem_of_fmap]]%list_elem_of_fmap.
  destruct (Hcached chunk Hchunk) as (e & records & He & Hs).
  exists records. unfold state_of. cbn [queryKey]. rewrite He. exact Hs.
Qed.

End Cache.

(** C7. Chunks and cache keys are a function of the identifier list: two
    invocations with equal lists make the same chunks and the same keys
    [("appids", chunk)], each with a stale time of 5 minutes. A lookup
    that a re-invocation starts belongs to a chunk without a result
    younger than 5 minutes in the cache; when every chunk has such a
    result, no lookup is started, the cache stays as it is and the
    component shows the cached records at once. *)
Theorem same_list_no_new_calls
    (backend : Backend) (appids appids' : list Z) (now : Z)
    (c : QueryCache.Cache) :
  appids' = appids ->
  let qs := queryOptions backend (chunks appids) in
  let qs' := queryOptions backend (chunks appids') in
  chunks appids' = chunks appids
  /\ map queryKey qs' = map queryKey qs
  /\ map queryKey qs = map (fun chunk => ("appids", chunk)) (chunks appids)
  /\ Forall (fun q => staleTime q = 300000%Z) qs
  /\ (forall q, q ∈ snd (QueryCache.subscribe_all now qs' c) ->
        forall e records,
          c !! queryKey q = Some e ->
          QueryCache.state e = Succeeded records ->
          (QueryCache.updatedAt e + 300000 <= now)%Z)
  /\ ((forall chunk, chunk ∈ chunks appids ->
         exists e records,
           c !! ("appids", chunk) = Some e
           /\ QueryCache.state e = Succeeded records
           /\ (now < QueryCache.updatedAt e + 300000)%Z) ->
       QueryCache.subscribe_all now qs' c = (c, [])
       /\ status_of (DealsGG backend (QueryCache.useQueries c) appids')
          = OverallSucceeded).
Proof.
  intros -> qs qs'. subst qs qs'.
  assert (Hstale : Forall (fun q => staleTime q = 300000%Z)
                          (queryOptions backend (chunks appids))).
  { apply Forall_forall. intros q [chunk [-> _]]%list_elem_of_fmap.
    reflexivity. }
  split; [reflexivity |]. split; [reflexivity |].
  split; [unfold queryOptions; rewrite map_map; reflexivity |].
  split; [exact Hstale |]. split.
  - intros q Hq e records He Hs.
    destruct (subscribe_all_started now _ c q Hq) as [Hin Hnone].
    specialize (Hnone e He). unfold QueryCache.reusable in Hnone.
    rewrite Hs in Hnone.
    rewrite (proj1 (Forall_forall _ _) Hstale q Hin) in Hnone.
    apply Z.ltb_ge in Hnone. exact Hnone.
  - intros Hfresh. split.
    + apply subscribe_all_reusable.
      intros q [chunk [-> Hchunk]]%list_elem_of_fmap.
      destruct (Hfresh chunk Hchunk) as (e & records & He & Hs & Hnow).
      exists e. split; [exact He |].
      unfold QueryCache.reusable. rewrite Hs. apply Z.ltb_lt. exact Hnow.
    + assert (Hcached : forall chunk, chunk ∈ chunks appids ->
                exists e records, c !! ("appids", chunk) = Some e
                                  /\ QueryCache.state e = Succeeded records).
      { intros chunk Hchunk.
        destruct (Hfresh chunk Hchunk) as (e & records & He & Hs & _).
        exists e, records. split; assumption. }
      rewrite (DealsGG_succeeded backend (QueryCache.useQueries c) appids _
                 (useQueries_states c _)); [reflexivity | |].
      * intros Hp. destruct (cached_states backend _ c _ Hcached Hp) as [r Hr].
        discriminate.
      * apply omap_failure_nil. intros e' He'.
        destruct (cached_states backend _ c _ Hcached He') as [r Hr].
        discriminate.
Qed.

Lemma same_list_no_new_calls_witness :
  length (sent (snd Sample.first_round)) = 2
  /\ QueryCache.subscribe_all 200000
       (queryOptions Sample.pricing (chunks Sample.wishlist51))
       (fst Sample.first_round)
     = (fst Sample.first_round, [])
  /\ status_of (DealsGG Sample.pricing
                  (QueryCache.useQueries (fst Sample.first_round))
                  Sample.wishlist51) = OverallSucceeded.
Proof.
  split; [reflexivity |].
  destruct (same_list_no_new_calls Sample.pricing Sample.wishlist51
              Sample.wishlist51 200000 (fst Sample.first_round) eq_refl)
    as (_ & _ & _ & _ & _ & Hnone).
  apply Hnone. intros chunk Hin.
  assert (Hcs : chunks Sample.wishlist51 =
                [take 50 Sample.wishlist51; [51%Z]]) by reflexivity.
  rewrite Hcs in Hin.
  apply elem_of_cons in Hin as [-> | Hin];
    [| apply list_elem_of_singleton in Hin as ->].
  - exists {| QueryCache.state :=
                Succeeded (map Sample.deal (take 50 Sample.wishlist51));
              QueryCache.updatedAt := 1000 |}.
    eexists. split; [vm_compute; reflexivity |].
    split; [reflexivity | cbn; lia].
  - exists {| QueryCache.state := Succeeded [Sample.deal 51];
              QueryCache.updatedAt := 1000 |}.
    eexists. split; [vm_compute; reflexivity |].
    split; [reflexivity | cbn; lia].
Defined.


(** * More on the component: arbitrary query results *)

Section AnyResults.
Implicit Types (qs : list QueryResult) (q : QueryResult).

(** The first element that passes a test is the head of the filtered
    list. *)
Lemma head_filter_first {A} (P : A -> Prop) `{forall x, Decision (P x)}
    (l : list A) (i : nat) (x : A) :
  l !! i = Some x -> P x ->
  (forall j y, j < i -> l !! j = Some y -> ~ P y) ->
  head (filter P l) = Some x.
Proof.
  revert i. induction l as [| a l IH]; intros [| i] Hi Hx Hfirst;
    try discriminate.
  - injection Hi as ->. rewrite filter_cons, decide_True by exact Hx.
    reflexivity.
  - rewrite filter_cons, decide_False by (apply (Hfirst 0 a); [lia | reflexivity]).
    apply (IH i Hi Hx). intros j y Hj Hy. apply (Hfirst (S j) y); [lia | exact Hy].
Qed.

Lemma errors_nil qs :
  (forall q, q ∈ qs -> error q = None) -> errors qs = [].
Proof.
  intros Hnone. unfold errors.
  induction qs as [| q qs IH]; [reflexivity |].
  rewrite filter_cons, decide_False.
  - apply IH. intros q' Hq'. apply Hnone. right. exact Hq'.
  - rewrite (Hnone q ltac:(left)). apply is_Some_None.
Qed.

Lemma allData_omap qs : allData qs = concat (omap data qs).
Proof.
  unfold allData. induction qs as [| q qs IH]; [reflexivity |].
  rewrite filter_cons. destruct (data q) as [records |] eqn:Hd; settle_is_Some.
  - cbn. rewrite Hd. cbn. f_equal. exact IH.
  - cbn. rewrite Hd. exact IH.
Qed.

Lemma loadedCount_le qs : loadedCount qs <= length qs.
Proof. unfold loadedCount. apply length_filter. Qed.

End AnyResults.

(** X1. Errors win over data, whatever the results look like: when no
    result is loading and some result carries an error, the view is the
    error view with the message of the first such result in chunk
    order, also when that result or any other carries data. *)
Theorem error_wins_over_data
    (backend : Backend) (useQueries : list QueryOptions -> list QueryResult)
    (appids : list Z) (i : nat) (q : QueryResult) (e : JsError) :
  let qs := useQueries (queryOptions backend (chunks appids)) in
  isLoading qs = false ->
  qs !! i = Some q ->
  error q = Some e ->
  (forall j q', j < i -> qs !! j = Some q' -> error q' = None) ->
  DealsGG backend useQueries appids = ErrorView (Some (message e))
  /\ visible_deals (DealsGG backend useQueries appids) = [].
Proof.
  intros qs Hload Hi He Hfirst.
  assert (Hhead : head (filter (fun q => is_Some (error q)) qs) = Some q).
  { apply (head_filter_first _ qs i q Hi).
    - rewrite He. eexists. reflexivity.
    - intros j q' Hj Hq'. rewrite (Hfirst j q' Hj Hq'). apply is_Some_None. }
  assert (Hview : DealsGG backend useQueries appids
                  = ErrorView (Some (message e))).
  { unfold DealsGG. fold qs. rewrite Hload. unfold errors.
    destruct (filter (fun q => is_Some (error q)) qs) as [| q0 rest];
      [discriminate |].
    injection Hhead as ->. cbn. rewrite He. reflexivity. }
  rewrite Hview. split; reflexivity.
Qed.

Lemma error_wins_over_data_witness :
  DealsGG Sample.offline
    (fun _ => [ {| ReactQuery.isLoading := false; error := None;
                   data := Some [Sample.deal 1] |};
                {| ReactQuery.isLoading := false;
                   error := Some Sample.network_error;
                   data := Some [Sample.deal 51] |} ])
    Sample.wishlist51
  = ErrorView (Some "Network Error").
Proof.
  apply (error_wins_over_data Sample.offline
           (fun _ => [ {| ReactQuery.isLoading := false; error := None;
                          data := Some [Sample.deal 1] |};
                       {| ReactQuery.isLoading := false;
                          error := Some Sample.network_error;
                          data := Some [Sample.deal 51] |} ])
           Sample.wishlist51 1
           {| ReactQuery.isLoading := false;
              error := Some Sample.network_error;
              data := Some [Sample.deal 51] |}
           Sample.network_error).
  - reflexivity.
  - reflexivity.
  - reflexivity.
  - intros [| j] q' Hj Hq'; [| lia]. injection Hq' as <-. reflexivity.
Defined.

(** X2. A result that is not loading and has neither data nor error is
    passed over in silence: when no result is loading and none has an
    error, the view is the succeeded one and shows the records of the
    results that have data, in order, and nothing for the others. *)
Theorem idle_results_are_skipped
    (backend : Backend) (useQueries : list QueryOptions -> list QueryResult)
    (appids : list Z) :
  let qs := useQueries (queryOptions backend (chunks appids)) in
  isLoading qs = false ->
  (forall q, q ∈ qs -> error q = None) ->
  DealsGG backend useQueries appids =
    DealsView (map (fun deal => GameCard deal) (concat (omap data qs)))
  /\ visible_deals (DealsGG backend useQueries appids) = concat (omap data qs).
Proof.
  intros qs Hload Hnone.
  assert (Hview : DealsGG backend useQueries appids =
            DealsView (map (fun deal => GameCard deal) (concat (omap data qs)))).
  { unfold DealsGG. fold qs. rewrite Hload, (errors_nil qs Hnone), allData_omap.
    reflexivity. }
  rewrite Hview, visible_deals_cards. split; reflexivity.
Qed.

Lemma idle_results_are_skipped_witness :
  DealsGG Sample.pricing
    (fun _ => [ {| ReactQuery.isLoading := false; error := None;
                   data := None |};
                {| ReactQuery.isLoading := false; error := None;
                   data := Some [Sample.deal 51] |} ])
    Sample.wishlist51
  = DealsView [GameCard (Sample.deal 51)].
Proof.
  apply (idle_results_are_skipped Sample.pricing
           (fun _ => [ {| ReactQuery.isLoading := false; error := None;
                          data := None |};
                       {| ReactQuery.isLoading := false; error := None;
                          data := Some [Sample.deal 51] |} ])
           Sample.wishlist51).
  - reflexivity.
  - intros q Hq. apply elem_of_cons in Hq as [-> | Hq]; [reflexivity |].
    apply list_elem_of_singleton in Hq as ->. reflexivity.
Defined.

(** X3. With a hook that answers one result per query, a loading view
    is only ever shown for a list that is not empty, its total is the
    number of chunks, [ceil (N / 50)], and the count of loaded batches
    never exceeds the total. *)
Theorem loading_progress_bounded
    (backend : Backend) (useQueries : list QueryOptions -> list QueryResult)
    (appids : list Z) (n t : nat) :
  (forall qs, length (useQueries qs) = length qs) ->
  DealsGG backend useQueries appids = LoadingView n t ->
  n <= t /\ t = (length appids + 49) / 50 /\ appids <> [].
Proof.
  intros Hlen. unfold DealsGG.
  set (qs := useQueries (queryOptions backend (chunks appids))).
  assert (Hqs : length qs = length (chunks appids)).
  { unfold qs. rewrite Hlen. unfold queryOptions. apply length_map. }
  destruct (isLoading qs) eqn:Hload.
  - intros [= <- <-]. split; [| split].
    + rewrite <- Hqs. apply loadedCount_le.
    + apply length_chunks.
    + intros ->. destruct qs; [discriminate | discriminate].
  - destruct (0 <? length (errors qs)); discriminate.
Qed.

Lemma loading_progress_bounded_witness :
  0 <= 2 /\ 2 = (length Sample.wishlist51 + 49) / 50 /\ Sample.wishlist51 <> [].
Proof.
  apply (loading_progress_bounded Sample.pricing Sample.loading
           Sample.wishlist51 0 2).
  - intros qs. unfold Sample.loading. apply length_map.
  - reflexivity.
Defined.

Lemma omap_records_insert_Succeeded (states : list ChunkState) (i : nat)
    (records : list DealsGGItem) :
  states !! i = Some Pending ->
  length (omap records_of (<[i := Succeeded records]> states)) =
  S (length (omap records_of states)).
Proof.
  revert i. induction states as [| s states IH]; intros [| i] Hi;
    try discriminate.
  - injection Hi as ->. reflexivity.
  - cbn in Hi. specialize (IH i Hi).
    change (<[S i := Succeeded records]> (s :: states))
      with (s :: <[i := Succeeded records]> states).
    destruct s; cbn; cbn in IH; lia.
Qed.

Lemma omap_records_insert_Failed (states : list ChunkState) (i : nat)
    (e : JsError) :
  states !! i = Some Pending ->
  length (omap records_of (<[i := Failed e]> states)) =
  length (omap records_of states).
Proof.
  revert i. induction states as [| s states IH]; intros [| i] Hi;
    try discriminate.
  - injection Hi as ->. reflexivity.
  - cbn in Hi. specialize (IH i Hi).
    change (<[S i := Failed e]> (s :: states))
      with (s :: <[i := Failed e]> states).
    destruct s; cbn; cbn in IH; lia.
Qed.

(** X4. Between two renders in which one pending chunk has settled and
    another chunk is still pending, the progress shown goes up by
    exactly one when the chunk succeeded and stays where it was when
    the chunk failed; the total does not move. *)
Theorem progress_step
    (backend : Backend)
    (before after : list QueryOptions -> list QueryResult)
    (appids : list Z) (states : list ChunkState) (i : nat) (s : ChunkState) :
  before (queryOptions backend (chunks appids)) = map resultOf states ->
  after (queryOptions backend (chunks appids)) =
    map resultOf (<[i := s]> states) ->
  states !! i = Some Pending ->
  s <> Pending ->
  Pending ∈ <[i := s]> states ->
  exists n t,
    DealsGG backend before appids = LoadingView n t
    /\ DealsGG backend after appids =
       LoadingView (match records_of s with Some _ => S n | None => n end) t.
Proof.
  intros Hb Ha Hi Hs Hp.
  exists (length (omap records_of states)), (length (chunks appids)).
  split.
  - apply (DealsGG_pending _ _ _ _ Hb).
    apply list_elem_of_lookup. exists i. exact Hi.
  - rewrite (DealsGG_pending _ _ _ _ Ha Hp).
    destruct s as [| records | e]; [contradiction | |]; cbn [records_of].
    + rewrite omap_records_insert_Succeeded by exact Hi. reflexivity.
    + rewrite omap_records_insert_Failed by exact Hi. reflexivity.
Qed.

Lemma progress_step_witness :
  exists n t,
    DealsGG Sample.pricing (Sample.reporting [Pending; Pending])
      Sample.wishlist51 = LoadingView n t
    /\ DealsGG Sample.pricing
         (Sample.reporting [Succeeded [Sample.deal 1]; Pending])
         Sample.wishlist51 = LoadingView (S n) t.
Proof.
  apply (progress_step Sample.pricing
           (Sample.reporting [Pending; Pending])
           (Sample.reporting [Succeeded [Sample.deal 1]; Pending])
           Sample.wishlist51 [Pending; Pending] 0
           (Succeeded [Sample.deal 1])).
  - reflexivity.
  - reflexivity.
  - reflexivity.
  - discriminate.
  - right. left.
Defined.

(** * More on chunking *)

Lemma length_chunks_multiple (a : list Z) (k : nat) :
  length a = 50 * k -> length (chunks a) = k.
Proof.
  intros Ha. rewrite length_chunks, Ha.
  pose proof (ceil_bounds (50 * k)) as Hc. lia.
Qed.

(** X5. Chunk boundaries depend on positions only, so appending to a
    list whose length is a multiple of 50 leaves its chunks, and with
    them their cache keys, as they were: the chunks of [a ++ b] are
    those of [a] followed by those of [b]. *)
Theorem chunks_app_multiple (backend : Backend) (a b : list Z) (k : nat) :
  length a = 50 * k ->
  chunks (a ++ b) = chunks a ++ chunks b
  /\ map queryKey (queryOptions backend (chunks (a ++ b))) =
     map queryKey (queryOptions backend (chunks a))
       ++ map queryKey (queryOptions backend (chunks b)).
Proof.
  intros Ha.
  assert (Hchunks : chunks (a ++ b) = chunks a ++ chunks b).
  { apply list_eq. intros j.
    destruct (decide (j < k)) as [Hlt | Hge].
    - rewrite lookup_app_l by (rewrite (length_chunks_multiple a k Ha); exact Hlt).
      rewrite !lookup_chunks, length_app.
      rewrite (decide_True (P := 50 * j < length a + length b)) by lia.
      rewrite (decide_True (P := 50 * j < length a)) by lia.
      f_equal. rewrite drop_app_le by lia.
      rewrite take_app_le by (rewrite length_drop; lia). reflexivity.
    - rewrite lookup_app_r by (rewrite (length_chunks_multiple a k Ha); lia).
      rewrite (length_chunks_multiple a k Ha).
      rewrite !lookup_chunks, length_app.
      replace (50 * j) with (length a + 50 * (j - k)) by lia.
      rewrite drop_app_add.
      destruct (decide (50 * (j - k) < length b)) as [Hin | Hout].
      + rewrite decide_True by lia. reflexivity.
      + rewrite decide_False by lia. reflexivity. }
  split; [exact Hchunks |].
  rewrite Hchunks. unfold queryOptions. rewrite !map_app. reflexivity.
Qed.

Lemma chunks_app_multiple_witness :
  chunks (replicate 50 730%Z ++ [570%Z]) =
  chunks (replicate 50 730%Z) ++ chunks [570%Z].
Proof.
  apply (chunks_app_multiple Sample.pricing (replicate 50 730%Z) [570%Z] 1).
  reflexivity.
Defined.

(** X6. A list without repeated identifiers gives chunks that differ
    from one another, hence queries with pairwise different keys: no
    two queries of one render share a cache entry. *)
Theorem distinct_ids_distinct_keys (backend : Backend) (appids : list Z) :
  NoDup appids ->
  NoDup (chunks appids)
  /\ NoDup (map queryKey (queryOptions backend (chunks appids))).
Proof.
  intros Hnd.
  assert (Hchunks : NoDup (chunks appids)).
  { apply NoDup_alt. intros i j chunk Hi Hj.
    apply lookup_chunks_Some in Hi as [Hi ->].
    apply lookup_chunks_Some in Hj as [Hj Heq].
    destruct (lookup_lt_is_Some_2 appids (50 * i) Hi) as [x Hx].
    assert (Hxi : take 50 (drop (50 * i) appids) !! 0 = Some x).
    { rewrite lookup_take_lt by lia. rewrite lookup_drop, Nat.add_0_r.
      exact Hx. }
    rewrite Heq in Hxi. rewrite lookup_take_lt in Hxi by lia.
    rewrite lookup_drop, Nat.add_0_r in Hxi.
    pose proof (proj1 (NoDup_alt appids) Hnd _ _ _ Hx Hxi). lia. }
  split; [exact Hchunks |].
  unfold queryOptions. rewrite map_map. cbn [queryKey].
  apply (NoDup_fmap_2 (fun chunk : list Z => ("appids", chunk))).
  exact Hchunks.
Qed.

Lemma distinct_ids_distinct_keys_witness :
  NoDup (map queryKey
           (queryOptions Sample.pricing (chunks Sample.wishlist51))).
Proof.
  apply (distinct_ids_distinct_keys Sample.pricing Sample.wishlist51).
  unfold Sample.wishlist51. apply (NoDup_fmap_2 Z.of_nat), NoDup_seq.
Defined.

(** * The other requests of [api.ts] *)

Section Calls.
Import Wire ApiSteam.
Context {T : Type}.
Variable server : Server T.
Implicit Types (c : Call) (w : HttpWorld) (e : JsError).

(** A call first puts its request on the wire. *)
Lemma run_call_unfold c :
  run_call server c =
  Wire.try_catch
    (Wire.bind
       (fun w => ({| wire := wire w ++ [request_of c]; printed := printed w |},
                  server (wire w) (request_of c)))
       (fun res => Wire.ret (Js.data res)))
    catch_block.
Proof. destruct c; reflexivity. Qed.

Lemma run_call_wire c w :
  wire (fst (run_call server c w)) = wire w ++ [request_of c].
Proof.
  rewrite run_call_unfold. unfold Wire.try_catch, Wire.bind, catch_block.
  destruct (server (wire w) (request_of c)) as [res | e]; [reflexivity |].
  destruct e as [m [[st body] |] | m | m]; try reflexivity.
  destruct body; reflexivity.
Qed.

Lemma run_call_fulfilled c w res :
  server (wire w) (request_of c) = Fulfilled res ->
  run_call server c w =
  ({| wire := wire w ++ [request_of c]; printed := printed w |},
   Fulfilled (Js.data res)).
Proof.
  intros Hres. rewrite run_call_unfold. unfold Wire.try_catch, Wire.bind.
  rewrite Hres. reflexivity.
Qed.

Lemma run_call_rethrows c w e :
  server (wire w) (request_of c) = Rejected e ->
  nullish_body e = false ->
  run_call server c w =
  ({| wire := wire w ++ [request_of c];
      printed := printed w ++ log_lines e |},
   Rejected e).
Proof.
  intros Hres Hbody. rewrite run_call_unfold.
  unfold Wire.try_catch, Wire.bind, catch_block. rewrite Hres.
  destruct e as [m [[st body] |] | m | m]; cbn;
    rewrite ?app_nil_r, <- ?app_assoc; try reflexivity.
  destruct body; try discriminate; cbn; rewrite <- ?app_assoc; reflexivity.
Qed.

Lemma run_call_nullish c w e :
  server (wire w) (request_of c) = Rejected e ->
  nullish_body e = true ->
  exists m,
    run_call server c w =
    ({| wire := wire w ++ [request_of c];
        printed := printed w ++ [("Status:", Api.response_status e)] |},
     Rejected (TypeError m))
    /\ e <> TypeError m.
Proof.
  intros Hres Hbody. rewrite run_call_unfold.
  unfold Wire.try_catch, Wire.bind, catch_block. rewrite Hres.
  destruct e as [m [[st body] |] | m | m]; try discriminate.
  destruct body; try discriminate; eexists; (split; [reflexivity | discriminate]).
Qed.

End Calls.



(** X8. When the request succeeds, each of the four functions hands on
    the body of the response as it came and writes nothing to the
    console. *)
Theorem api_success_passthrough {T : Type} (server : Wire.Server T)
    (c : ApiSteam.Call) (w : Wire.HttpWorld) (res : AxiosResponse T) :
  ApiSteam.in_range c ->
  server (Wire.wire w) (ApiSteam.request_of c) = Fulfilled res ->
  snd (ApiSteam.run_call server c w) = Fulfilled (Js.data res)
  /\ Wire.printed (fst (ApiSteam.run_call server c w)) = Wire.printed w.
Proof.
  intros _ Hres. rewrite (run_call_fulfilled server c w res Hres).
  split; reflexivity.
Qed.

Lemma api_success_passthrough_witness :
  snd (ApiSteam.fetchUserWishlist Fixtures.wishlist_server "7" Fixtures.quiet)
  = Fulfilled Fixtures.items.
Proof.
  apply (api_success_passthrough Fixtures.wishlist_server
           (ApiSteam.UserWishlist "7") Fixtures.quiet
           {| status := 200; Js.data := Fixtures.items |}).
  - exact I.
  - reflexivity.
Defined.

(** X9. When the request fails and the body of the error response, if
    there is one, is neither [null] nor [undefined], each of the four
    functions rejects with the very error of the request. For an
    [AxiosError] the console gets two lines before that, the status and
    then the [detail] of the body ([undefined] where there is none); for
    any other error it gets nothing. *)
Theorem api_failure_rethrown {T : Type} (server : Wire.Server T)
    (c : ApiSteam.Call) (w : Wire.HttpWorld) (e : JsError) :
  ApiSteam.in_range c ->
  server (Wire.wire w) (ApiSteam.request_of c) = Rejected e ->
  nullish_body e = false ->
  snd (ApiSteam.run_call server c w) = Rejected e
  /\ Wire.printed (fst (ApiSteam.run_call server c w)) =
     Wire.printed w ++ ApiSteam.log_lines e
  /\ (isAxiosError e = true -> length (ApiSteam.log_lines e) = 2)
  /\ (isAxiosError e = false -> ApiSteam.log_lines e = []).
Proof.
  intros _ Hres Hbody. rewrite (run_call_rethrows server c w e Hres Hbody).
  split; [reflexivity |]. split; [reflexivity |].
  destruct e as [m [r |] | m | m]; split; intros; try reflexivity;
    discriminate.
Qed.

Lemma api_failure_rethrown_witness :
  ApiSteam.fetchUserWishlist Fixtures.private_server "7" Fixtures.quiet =
  ({| Wire.wire := [ {| Wire.http_method := Wire.GET;
                        Wire.http_url := "/api/steam/user/wishlist/7";
                        Wire.http_appids := None |} ];
      Wire.printed := [("Status:", JsNumber 404);
                       ("Message:", JsString "Wishlist is private")] |},
   Rejected Fixtures.private_error).
Proof.
  destruct (api_failure_rethrown Fixtures.private_server
              (ApiSteam.UserWishlist "7") Fixtures.quiet
              Fixtures.private_error I eq_refl eq_refl) as (Hr & Hp & _).
  cbn [ApiSteam.run_call] in Hr, Hp.
  destruct (ApiSteam.fetchUserWishlist Fixtures.private_server "7"
              Fixtures.quiet) as [[wire' printed'] r'] eqn:Hrun.
  cbn in Hr, Hp. rewrite Hr, Hp.
  injection Hrun as Hwire _ _. rewrite <- Hwire. reflexivity.
Defined.

(** X10. The four functions share the catch block of [fetchDealsGG] and
    its weak spot: for an [AxiosError] whose response body is [null] or
    [undefined], the status line is written, reading [.detail] throws,
    and the caller gets that [TypeError] in place of the error of the
    request. *)
Theorem api_failure_nullish_body {T : Type} (server : Wire.Server T)
    (c : ApiSteam.Call) (w : Wire.HttpWorld) (e : JsError) :
  ApiSteam.in_range c ->
  server (Wire.wire w) (ApiSteam.request_of c) = Rejected e ->
  nullish_body e = true ->
  exists m,
    snd (ApiSteam.run_call server c w) = Rejected (TypeError m)
    /\ e <> TypeError m
    /\ Wire.printed (fst (ApiSteam.run_call server c w)) =
       Wire.printed w ++ [("Status:", response_status e)].
Proof.
  intros _ Hres Hbody.
  destruct (run_call_nullish server c w e Hres Hbody) as (m & Hrun & Hne).
  exists m. rewrite Hrun. repeat split; [exact Hne].
Qed.

Lemma api_failure_nullish_body_witness :
  exists m,
    snd (ApiSteam.fetchUserWishlist Fixtures.null_body_server "7"
           Fixtures.quiet) = Rejected (TypeError m)
    /\ Sample.null_body_error <> TypeError m.
Proof.
  destruct (api_failure_nullish_body Fixtures.null_body_server
              (ApiSteam.UserWishlist "7") Fixtures.quiet
              Sample.null_body_error I eq_refl eq_refl) as (m & Hr & Hne & _).
  exists m. split; [exact Hr | exact Hne].
Defined.

(** X11. The argument goes into the path unescaped, so paths can be
    reached through the wrong function: [fetchSteamUser] called with
    ["wishlist/" + id] does exactly what [fetchUserWishlist] does with
    [id], request, result and console alike. *)
Theorem user_path_reaches_wishlist {T : Type} (server : Wire.Server T)
    (steam_id : string) (w : Wire.HttpWorld) :
  ApiSteam.fetchSteamUser server ("wishlist/" +:+ steam_id) w =
  ApiSteam.fetchUserWishlist server steam_id w.
Proof. reflexivity. Qed.

(** X12. [fetchDealsGG] logs like the others: when the request fails
    with an error whose response body, if any, is neither [null] nor
    [undefined], the console gets the lines of the catch block, status
    first and [detail] second for an [AxiosError] and none otherwise,
    one request is on the wire, and the error is the one thrown. *)
Theorem fetchDealsGG_logs (backend : Backend) (appids : list Z) (w : World)
    (e : JsError) :
  backend (sent w) (deals_request appids) = Rejected e ->
  nullish_body e = false ->
  fetchDealsGG backend appids w =
  ({| sent := sent w ++ [deals_request appids];
      console := console w ++ ApiSteam.log_lines e |},
   Rejected e).
Proof.
  intros Hres Hbody. unfold fetchDealsGG, try_catch, bind, post.
  fold (deals_request appids). rewrite Hres.
  destruct e as [m [[st body] |] | m | m]; cbn;
    rewrite ?app_nil_r, <- ?app_assoc; try reflexivity.
  destruct body; try discriminate; cbn; rewrite <- ?app_assoc; reflexivity.
Qed.

Lemma fetchDealsGG_logs_witness :
  fetchDealsGG Fixtures.private_backend [730%Z] Sample.empty_world =
  ({| sent := [deals_request [730%Z]];
      console := [("Status:", JsNumber 404);
                  ("Message:", JsString "Wishlist is private")] |},
   Rejected Fixtures.private_error).
Proof.
  apply (fetchDealsGG_logs Fixtures.private_backend [730%Z]
           Sample.empty_world Fixtures.private_error); reflexivity.
Defined.

(** * [Wishlist]: from the wishlist to the deals *)

Section WishlistToDeals.
Import WishlistComponent.

Lemma DealsGG_priced
    (backend : Backend) (useQueries : list QueryOptions -> list QueryResult)
    (appids : list Z) (f : Z -> DealsGGItem) :
  useQueries (queryOptions backend (chunks appids)) =
    map resultOf (map (fun chunk => Succeeded (map f chunk)) (chunks appids)) ->
  DealsGG backend useQueries appids =
  DealsView (map (fun deal => GameCard deal) (map f appids)).
Proof.
  intros Hq.
  rewrite (DealsGG_succeeded backend useQueries appids _ Hq
             (Pending_not_priced f _) (omap_failure_priced f _)).
  rewrite omap_records_priced, <- concat_map, concat_chunks. reflexivity.
Qed.

Lemma DealsGG_nil
    (backend : Backend) (useQueries : list QueryOptions -> list QueryResult) :
  (forall qs, length (useQueries qs) = length qs) ->
  DealsGG backend useQueries [] = DealsView [].
Proof.
  intros Hlen. unfold DealsGG. change (chunks []) with (@nil (list Z)).
  cbn [queryOptions map].
  rewrite (proj1 (length_zero_iff_nil (useQueries [])) (Hlen [])).
  reflexivity.
Qed.

End WishlistToDeals.

(** X13. Once the wishlist is there, the deals come in the order of the
    wishlist and the [priority] of an item plays no part: when every
    chunk lookup has answered with one record per identifier asked, the
    records shown are those of the wishlist's [appid]s, item by item, and
    the lookups are [ceil (n / 50)] in number for [n] items. *)
Theorem wishlist_order_is_kept
    (server : Wire.Server (list SteamWishlist.WishlistItem))
    (backend : Backend)
    (useQuery : UseQuery.Options (list SteamWishlist.WishlistItem) ->
                UseQuery.Result (list SteamWishlist.WishlistItem))
    (useQueries : list QueryOptions -> list QueryResult)
    (steamId : string) (items : list SteamWishlist.WishlistItem)
    (f : Z -> DealsGGItem) :
  let r := useQuery (WishlistComponent.wishlistQuery server steamId) in
  let appids := map SteamWishlist.appid items in
  UseQuery.isLoading r = false ->
  UseQuery.error r = None ->
  UseQuery.data r = Some items ->
  useQueries (queryOptions backend (chunks appids)) =
    map resultOf (map (fun chunk => Succeeded (map f chunk)) (chunks appids)) ->
  WishlistComponent.Wishlist server backend useQuery useQueries steamId =
    WishlistComponent.WishlistDeals
      (DealsView (map (fun deal => GameCard deal) (map f appids)))
  /\ length (queryOptions backend (chunks appids)) = (length items + 49) / 50.
Proof.
  intros r appids Hload Herr Hdata Hq. split.
  - unfold WishlistComponent.Wishlist. fold r. rewrite Hload, Herr, Hdata.
    cbn [WishlistComponent.game_appids]. fold appids.
    rewrite (DealsGG_priced backend useQueries appids f Hq). reflexivity.
  - unfold queryOptions. rewrite length_map, length_chunks.
    unfold appids. rewrite length_map. reflexivity.
Qed.

Lemma wishlist_order_is_kept_witness :
  WishlistComponent.Wishlist Fixtures.wishlist_server Sample.pricing
    (fun _ => {| UseQuery.data := Some Fixtures.items;
                 UseQuery.isLoading := false; UseQuery.error := None |})
    (Sample.reporting [Succeeded (map Sample.deal [730; 570; 440]%Z)])
    "7"
  = WishlistComponent.WishlistDeals
      (DealsView [GameCard (Sample.deal 730); GameCard (Sample.deal 570);
                  GameCard (Sample.deal 440)]).
Proof.
  apply (wishlist_order_is_kept Fixtures.wishlist_server Sample.pricing
           (fun _ => {| UseQuery.data := Some Fixtures.items;
                        UseQuery.isLoading := false; UseQuery.error := None |})
           (Sample.reporting [Succeeded (map Sample.deal [730; 570; 440]%Z)])
           "7" Fixtures.items Sample.deal); reflexivity.
Defined.

(** X14. Missing data looks like an empty wishlist: when the wishlist
    query is not loading and has no error, a result without data and a
    result with an empty list both render the deals component on the
    empty list, which shows no record and no message. *)
Theorem wishlist_without_data_is_empty
    (server : Wire.Server (list SteamWishlist.WishlistItem))
    (backend : Backend)
    (useQuery : UseQuery.Options (list SteamWishlist.WishlistItem) ->
                UseQuery.Result (list SteamWishlist.WishlistItem))
    (useQueries : list QueryOptions -> list QueryResult)
    (steamId : string) :
  let r := useQuery (WishlistComponent.wishlistQuery server steamId) in
  (forall qs, length (useQueries qs) = length qs) ->
  UseQuery.isLoading r = false ->
  UseQuery.error r = None ->
  UseQuery.data r = None \/ UseQuery.data r = Some [] ->
  WishlistComponent.Wishlist server backend useQuery useQueries steamId =
  WishlistComponent.WishlistDeals (DealsView []).
Proof.
  intros r Hlen Hload Herr Hdata.
  unfold WishlistComponent.Wishlist. fold r. rewrite Hload, Herr.
  destruct Hdata as [-> | ->]; cbn [WishlistComponent.game_appids map];
    rewrite (DealsGG_nil backend useQueries Hlen); reflexivity.
Qed.

Lemma wishlist_without_data_is_empty_witness :
  WishlistComponent.Wishlist Fixtures.wishlist_server Sample.pricing
    (fun _ => {| UseQuery.data := None;
                 UseQuery.isLoading := false; UseQuery.error := None |})
    Sample.loading "7"
  = WishlistComponent.WishlistDeals (DealsView []).
Proof.
  apply (wishlist_without_data_is_empty Fixtures.wishlist_server
           Sample.pricing
           (fun _ => {| UseQuery.data := None;
                        UseQuery.isLoading := false; UseQuery.error := None |})
           Sample.loading "7").
  - intros qs. unfold Sample.loading. apply length_map.
  - reflexivity.
  - reflexivity.
  - left. reflexivity.
Defined.

(** * [App]: when the wishlist is shown *)

Section App.
Import AppComponent.
Implicit Types (st : AppState) (evs : list Event) (s id key : string).

Lemma trim_start_blank s : trim_start s = "" <-> blank s = true.
Proof.
  induction s as [| c rest IH]; cbn [trim_start blank]; [tauto |].
  destruct (is_white c); cbn [andb]; [exact IH |].
  split; discriminate.
Qed.

(** What [trim_start] leaves begins with a character that stays. *)
Lemma trim_start_head s c rest :
  trim_start s = String c rest -> is_white c = false.
Proof.
  induction s as [| c0 rest0 IH]; cbn [trim_start]; [discriminate |].
  destruct (is_white c0) eqn:Hc0; [exact IH |].
  intros [= <- _]. exact Hc0.
Qed.

Lemma trim_end_head c rest :
  is_white c = false -> trim_end (String c rest) <> "".
Proof.
  intros Hc. cbn [trim_end]. rewrite Hc.
  destruct (trim_end rest); discriminate.
Qed.

Lemma truthy_trim s : truthy (trim s) = negb (blank s).
Proof.
  unfold truthy, trim.
  destruct (trim_start s) as [| c rest] eqn:Hs.
  - apply trim_start_blank in Hs. rewrite Hs. reflexivity.
  - assert (Hb : blank s = false).
    { destruct (blank s) eqn:Hb; [| reflexivity].
      apply trim_start_blank in Hb. congruence. }
    rewrite Hb. apply trim_start_head in Hs.
    pose proof (trim_end_head c rest Hs) as Hne.
    destruct (trim_end (String c rest)); [contradiction | reflexivity].
Qed.

Lemma step_keeps_display st ev :
  displayWishlist st = true -> displayWishlist (step st ev) = true.
Proof.
  intros Hd. destruct ev as [value | key]; cbn [step onChange displayWishlist];
    [exact Hd |].
  unfold handleEnterKey.
  destruct (String.eqb key "Enter"); [| exact Hd].
  destruct (steamId st) as [id |]; [| exact Hd].
  destruct (truthy (trim id)); [reflexivity | exact Hd].
Qed.

Lemma run_keeps_display evs st :
  displayWishlist st = true -> displayWishlist (run evs st) = true.
Proof.
  revert st. induction evs as [| ev evs IH]; intros st Hd; [exact Hd |].
  apply IH, step_keeps_display, Hd.
Qed.

Lemma run_app evs1 evs2 st : run (evs1 ++ evs2) st = run evs2 (run evs1 st).
Proof. unfold run. apply foldl_app. Qed.

(** A wishlist on display has an identifier. *)
Lemma step_keeps_id st ev :
  (displayWishlist st = true -> is_Some (steamId st)) ->
  displayWishlist (step st ev) = true -> is_Some (steamId (step st ev)).
Proof.
  intros Hinv. destruct ev as [value | key]; cbn [step onChange steamId];
    [intros _; eexists; reflexivity |].
  unfold handleEnterKey.
  destruct (String.eqb key "Enter"); [| exact Hinv].
  destruct (steamId st) as [id |] eqn:Hid.
  - destruct (truthy (trim id)); cbn [steamId displayWishlist];
      intros _; rewrite ?Hid; eexists; reflexivity.
  - intros Hd. specialize (Hinv Hd). rewrite Hid in *. exact Hinv.
Qed.

End App.

(** X15. Nothing hides the wishlist again: once [displayWishlist] is
    set, it stays set through every sequence of changes and key
    presses, so a wishlist is rendered ever after. *)
Theorem display_is_permanent
    (st : AppComponent.AppState) (evs : list AppComponent.Event) :
  AppComponent.displayWishlist st = true ->
  AppComponent.displayWishlist (AppComponent.run evs st) = true
  /\ AppComponent.rendered_wishlist (AppComponent.run evs st) <> None.
Proof.
  intros Hd. pose proof (run_keeps_display evs st Hd) as Hrun.
  split; [exact Hrun |].
  unfold AppComponent.rendered_wishlist. rewrite Hrun. discriminate.
Qed.

Lemma display_is_permanent_witness :
  AppComponent.displayWishlist
    (AppComponent.run
       [AppComponent.Change ""; AppComponent.KeyDown "Enter";
        AppComponent.KeyDown "Escape"]
       {| AppComponent.steamId := Some "7";
          AppComponent.displayWishlist := true |}) = true.
Proof.
  apply (display_is_permanent
           {| AppComponent.steamId := Some "7";
              AppComponent.displayWishlist := true |}
           [AppComponent.Change ""; AppComponent.KeyDown "Enter";
            AppComponent.KeyDown "Escape"]).
  reflexivity.
Defined.

(** X16. A key press brings up the wishlist exactly when the key is
    Enter and the identifier in the input is a string with a character
    that is not white space; any other key, an identifier that is empty
    or blank, or no identifier at all, leaves it hidden. *)
Theorem enter_displays_iff (st : AppComponent.AppState) (key : string) :
  AppComponent.displayWishlist st = false ->
  AppComponent.displayWishlist
    (AppComponent.step st (AppComponent.KeyDown key)) = true
  <-> key = "Enter"
      /\ exists id, AppComponent.steamId st = Some id
                    /\ AppComponent.blank id = false.
Proof.
  intros Hd. cbn [AppComponent.step]. unfold AppComponent.handleEnterKey.
  destruct (String.eqb key "Enter") eqn:Hkey.
  - apply String.eqb_eq in Hkey.
    destruct (AppComponent.steamId st) as [id |] eqn:Hid.
    + rewrite truthy_trim.
      destruct (AppComponent.blank id) eqn:Hb; cbn.
      * rewrite Hd. split; [discriminate |].
        intros [_ (id' & [= <-] & Hb')]. congruence.
      * split; [| reflexivity]. intros _. split; [exact Hkey |].
        exists id. split; [reflexivity | exact Hb].
    + rewrite Hd. split; [discriminate |].
      intros [_ (id' & Hid' & _)]. discriminate.
  - apply String.eqb_neq in Hkey. rewrite Hd.
    split; [discriminate |]. intros [Hk _]. contradiction.
Qed.

Lemma enter_displays_iff_witness :
  AppComponent.displayWishlist
    (AppComponent.step (AppComponent.initial (Some " 76561198000000000 "))
       (AppComponent.KeyDown "Enter")) = true.
Proof.
  apply (enter_displays_iff
           (AppComponent.initial (Some " 76561198000000000 ")) "Enter").
  - reflexivity.
  - split; [reflexivity |]. eexists. split; reflexivity.
Defined.

(** X17. The check for a blank identifier guards the first display
    only. Once the wishlist is shown, every change of the input is the
    identifier of the wishlist rendered, without Enter and also when
    blank, and the query made for it asks
    [/api/steam/user/wishlist/] followed by that value. *)
Theorem displayed_wishlist_follows_input
    (server : Wire.Server (list SteamWishlist.WishlistItem))
    (st : AppComponent.AppState) (evs : list AppComponent.Event)
    (value : string) (w : Wire.HttpWorld) :
  AppComponent.displayWishlist st = true ->
  AppComponent.rendered_wishlist
    (AppComponent.run (evs ++ [AppComponent.Change value]) st)
    = Some (Some value)
  /\ UseQuery.queryKey (WishlistComponent.wishlistQuery server value)
     = ("steamUser", value)
  /\ Wire.wire
       (fst (UseQuery.queryFn (WishlistComponent.wishlistQuery server value) w))
     = Wire.wire w
       ++ [ {| Wire.http_method := Wire.GET;
               Wire.http_url := "/api/steam/user/wishlist/" +:+ value;
               Wire.http_appids := None |} ].
Proof.
  intros Hd. split; [| split].
  - rewrite run_app. cbn [AppComponent.run foldl AppComponent.step].
    unfold AppComponent.rendered_wishlist, AppComponent.onChange.
    cbn [AppComponent.displayWishlist AppComponent.steamId].
    fold (AppComponent.run evs st).
    rewrite (run_keeps_display evs st Hd). reflexivity.
  - reflexivity.
  - apply (run_call_wire server (ApiSteam.UserWishlist value)).
Qed.

Lemma displayed_wishlist_follows_input_witness :
  AppComponent.rendered_wishlist
    (AppComponent.run
       [AppComponent.KeyDown "Enter"; AppComponent.Change "  "]
       (AppComponent.initial (Some "7")))
  = Some (Some "  ").
Proof.
  apply (displayed_wishlist_follows_input Fixtures.wishlist_server
           (AppComponent.step (AppComponent.initial (Some "7"))
              (AppComponent.KeyDown "Enter"))
           [] "  " Fixtures.quiet).
  reflexivity.
Defined.

(** X18. From the start of the application on, whatever the
    environment variable and whatever the user does, a wishlist is never
    rendered without an identifier: [steamId] is a string whenever
    [displayWishlist] is set. *)
Theorem wishlist_always_has_id
    (STEAM_ID : option string) (evs : list AppComponent.Event) :
  AppComponent.rendered_wishlist
    (AppComponent.run evs (AppComponent.initial STEAM_ID)) <> Some None.
Proof.
  assert (Hinv : forall evs st,
            (AppComponent.displayWishlist st = true ->
             is_Some (AppComponent.steamId st)) ->
            AppComponent.displayWishlist (AppComponent.run evs st) = true ->
            is_Some (AppComponent.steamId (AppComponent.run evs st))).
  { clear. intros evs. induction evs as [| ev evs IH]; intros st Hst;
      [exact Hst |].
    apply (IH (AppComponent.step st ev)). apply step_keeps_id. exact Hst. }
  unfold AppComponent.rendered_wishlist.
  destruct (AppComponent.displayWishlist
              (AppComponent.run evs (AppComponent.initial STEAM_ID))) eqn:Hd;
    [| discriminate].
  destruct (Hinv evs (AppComponent.initial STEAM_ID)
              ltac:(discriminate) Hd) as [id Hid].
  rewrite Hid. discriminate.
Qed.

(** X19. While there is no identifier, which is so from the start when
    [VITE_STEAM_USER_ID] is not set and until the input changes, Enter
    makes the handler throw a [TypeError] on [steamId.trim()], and no
    sequence of key presses changes the state or shows the wishlist. *)
Theorem enter_without_id_throws
    (st : AppComponent.AppState) (keys : list string) :
  AppComponent.steamId st = None ->
  AppComponent.handleEnterKey "Enter" st =
    Rejected (TypeError "Cannot read properties of undefined (reading 'trim')")
  /\ AppComponent.run (map AppComponent.KeyDown keys) st = st.
Proof.
  intros Hid. split.
  - unfold AppComponent.handleEnterKey. rewrite Hid. reflexivity.
  - induction keys as [| key keys IH]; [reflexivity |].
    cbn [map AppComponent.run foldl].
    assert (Hstep : AppComponent.step st (AppComponent.KeyDown key) = st).
    { cbn [AppComponent.step]. unfold AppComponent.handleEnterKey.
      rewrite Hid. destruct (String.eqb key "Enter"); reflexivity. }
    rewrite Hstep. exact IH.
Qed.

Lemma enter_without_id_throws_witness :
  AppComponent.run
    (map AppComponent.KeyDown ["7"; "Enter"; "Enter"])
    (AppComponent.initial None)
  = AppComponent.initial None.
Proof.
  apply (enter_without_id_throws (AppComponent.initial None)
           ["7"; "Enter"; "Enter"]).
  reflexivity.
Defined.
